(** * UE session manager: the Redis-backed session store and its service layer

    A shallow embedding of [internal/repository] (the session repository over
    go-redis), [internal/service] (the business layer), [internal/domain]
    (records and error values), [internal/database] (key scheme),
    [internal/config] (validation of the configuration) and the status
    mapping of [internal/handler].

    Conventions of the embedding.
    - Go strings are [string] (sequences of bytes; [len] is [String.length]).
    - [time.Time] and [time.Duration] are [Z], counted in milliseconds, the
      resolution of the store's clock (a duration with a fraction of a
      millisecond is outside the embedding); the zero [time.Time] is [0].
      The client sends the expiration of a SET in milliseconds and that of
      an EXPIRE in whole seconds ([formatSec] of go-redis), and the
      embedding does the same.
    - The Redis key space is one finite map from keys to entries; an entry
      carries its value and its expiry instant.  Expired entries are
      invisible to every command (lazy expiry).
    - [encoding/json] is abstracted by its round trip: the string stored
      under a session key is represented by the session it encodes.  The
      round trip is the identity on records whose strings are valid UTF-8
      and whose time stamps lie in the years 0 to 9999; other records
      (json.Marshal fails on such a time stamp and replaces invalid bytes
      of a string) are outside the embedding.
    - One call runs at one instant [now]: every [time.Now()] and every store
      command of the call see that instant.  A function that can recurse
      without bound takes a recursion budget [fuel], and [OutOfFuel] means
      that the budget was used up before the function returned; a call that
      is [OutOfFuel] for every budget is a call that cannot return while the
      key space stays as it is.  What such a call does once keys expire
      under it is not described by its one-instant result; the section on
      write batches bounds it from above.
    - The store is reachable: no network failure and no cancelled context.
    - The detached tasks started with [go] run at the point where they are
      started.
    - Left out: the HTTP handlers apart from the status mapping, the
      configuration loader, and the demo and benchmark programs. *)

From stdpp Require Import base gmap sets list strings.
From Stdlib Require Import ZArith Lia.

Local Open Scope string_scope.
Local Open Scope Z_scope.

(** ** Go error values *)

(** Every error value the program can produce.  [redis_Nil] and
    [redis_WrongType] come from the store client, the next three are the
    error structs of [internal/domain], [Errorf msg] is [fmt.Errorf]
    without a wrapped error, and [Wrapf msg cause] is [fmt.Errorf] with
    [cause] wrapped by the verb [%w]. *)
Inductive error : Type :=
  | redis_Nil
  | redis_WrongType
  | ValidationError (Field Message : string)
  | NotFoundError (Resource : string)
  | ExpiredError (Resource : string)
  | Errorf (msg : string)
  | Wrapf (msg : string) (cause : error).

(** Whether an error is one of the [ValidationError] values. *)
Definition is_ValidationError (e : error) : bool :=
  match e with ValidationError _ _ => true | _ => false end.

(** ** internal/domain *)

Module domain.

Record SecurityContext : Type := mkSecurityContext {
  KAMF : string;
  Algorithm : string;
  KeySetID : string;
  NextHopChainingCount : Z
}.

(** [Capabilities] is a Go slice: [None] is the nil slice. *)
Record Session : Type := mkSession {
  TMSI : string;
  IMSI : string;
  MSISDN : string;
  AttachTime : Z;
  LastUpdate : Z;
  GNBID : string;
  TAI : string;
  UEState : string;
  Capabilities : option (list string);
  SecurityCtx : SecurityContext
}.

Definition with_AttachTime (t : Z) (s : Session) : Session :=
  mkSession (TMSI s) (IMSI s) (MSISDN s) t (LastUpdate s) (GNBID s) (TAI s)
            (UEState s) (Capabilities s) (SecurityCtx s).

Definition with_LastUpdate (t : Z) (s : Session) : Session :=
  mkSession (TMSI s) (IMSI s) (MSISDN s) (AttachTime s) t (GNBID s) (TAI s)
            (UEState s) (Capabilities s) (SecurityCtx s).

Definition with_UEState (u : string) (s : Session) : Session :=
  mkSession (TMSI s) (IMSI s) (MSISDN s) (AttachTime s) (LastUpdate s) (GNBID s)
            (TAI s) u (Capabilities s) (SecurityCtx s).

Definition with_Capabilities (c : option (list string)) (s : Session) : Session :=
  mkSession (TMSI s) (IMSI s) (MSISDN s) (AttachTime s) (LastUpdate s) (GNBID s)
            (TAI s) (UEState s) c (SecurityCtx s).

(** [time.Time.IsZero] *)
Definition IsZero (t : Z) : bool := t =? 0.

Definition ErrInvalidTMSI : error :=
  ValidationError "tmsi" "TMSI is required and must be valid".
Definition ErrInvalidIMSI : error :=
  ValidationError "imsi" "IMSI is required and must be valid".
Definition ErrInvalidMSISDN : error :=
  ValidationError "msisdn" "MSISDN is required and must be valid".
Definition ErrSessionNotFound : error := NotFoundError "session".
Definition ErrSessionExpired : error := ExpiredError "session".

(** Two sessions agree on everything but the two timestamps. *)
Definition same_but_timestamps (a b : Session) : Prop :=
  with_AttachTime 0 (with_LastUpdate 0 a) = with_AttachTime 0 (with_LastUpdate 0 b).

End domain.

(** ** internal/config (session part) *)

Module config.

Record SessionConfig : Type := mkSessionConfig {
  DefaultTTL : Z;
  MaxTTL : Z;
  MinTTL : Z
}.

(** The session checks of [validateConfig]: [None] is the nil error. *)
Definition validateConfig (c : SessionConfig) : option error :=
  if DefaultTTL c <=? 0 then Some (Errorf "invalid default TTL")
  else if MaxTTL c <=? 0 then Some (Errorf "invalid max TTL")
  else if MinTTL c <=? 0 then Some (Errorf "invalid min TTL")
  else if MaxTTL c <? DefaultTTL c
       then Some (Errorf "default TTL cannot be greater than max TTL")
  else if DefaultTTL c <? MinTTL c
       then Some (Errorf "default TTL cannot be less than min TTL")
  else None.

End config.

(** ** The store: a Redis key space with per-key expiry *)

Module redis.

(** A key holds either a string (here: an encoded session) or a set. *)
Inductive value : Type :=
  | VString (data : domain.Session)
  | VSet (members : gset string).

Record entry : Type := Entry {
  val : value;
  expire_at : option Z
}.

(** An entry is visible at [now] while its expiry, if any, lies ahead. *)
Definition live (now : Z) (e : entry) : bool :=
  match expire_at e with
  | Some t => now <? t
  | None => true
  end.

Definition peek (now : Z) (db : gmap string entry) (key : string) : option entry :=
  match db !! key with
  | Some e => if live now e then Some e else None
  | None => None
  end.

Inductive cmd : Type :=
  | GET (key : string)
  | SET (key : string) (data : domain.Session) (expiration : Z)
  | DEL (key : string)
  | SADD (key member : string)
  | SREM (key member : string)
  | SMEMBERS (key : string)
  | EXPIRE (key : string) (expiration : Z).

Inductive reply : Type :=
  | RErr (e : error)
  | RStatus
  | RString (data : domain.Session)
  | RInt (n : Z)
  | RStrings (l : list string).

(** go-redis [KeepTTL] *)
Definition KeepTTL : Z := -1.

(** [time.Second], in milliseconds. *)
Definition Second : Z := 1000.

(** go-redis [formatSec], the argument of EXPIRE: a duration in whole
    seconds, rounded towards zero, and one second for a positive duration
    below a second. *)
Definition formatSec (dur : Z) : Z :=
  if (0 <? dur) && (dur <? Second) then 1 else Z.quot dur Second.

(** The time to live that EXPIRE sets for a duration, in milliseconds. *)
Definition whole_seconds (dur : Z) : Z := formatSec dur * Second.

(** One command of the client, executed at instant [now].
    - SET with a positive expiration is sent with PX (or with EX when the
      expiration is a whole number of seconds) and stores the expiry
      [now + expiration]; with [KeepTTL] it keeps the expiry of a visible
      key; otherwise the key gets no expiry.
    - SADD on a missing key creates a set without expiry.
    - SREM that empties the set removes the key.
    - EXPIRE is sent with [formatSec expiration] seconds: a visible key
      gets the expiry [now + whole_seconds expiration], and is removed when
      that number of seconds is not positive.
    - A command on a key of the other type replies WRONGTYPE. *)
Definition exec (now : Z) (c : cmd) (db : gmap string entry)
  : reply * gmap string entry :=
  match c with
  | GET key =>
      match peek now db key with
      | None => (RErr redis_Nil, db)
      | Some (Entry (VString d) _) => (RString d, db)
      | Some (Entry (VSet _) _) => (RErr redis_WrongType, db)
      end
  | SET key d expiration =>
      let ex :=
        if 0 <? expiration then Some (now + expiration)
        else if expiration =? KeepTTL
             then match peek now db key with Some e => expire_at e | None => None end
             else None in
      (RStatus, <[key := Entry (VString d) ex]> db)
  | DEL key =>
      match peek now db key with
      | None => (RInt 0, delete key db)
      | Some _ => (RInt 1, delete key db)
      end
  | SADD key member =>
      match peek now db key with
      | None => (RInt 1, <[key := Entry (VSet {[ member ]}) None]> db)
      | Some (Entry (VSet s) ex) =>
          (RInt (if decide (member ∈ s) then 0 else 1),
           <[key := Entry (VSet ({[ member ]} ∪ s)) ex]> db)
      | Some (Entry (VString _) _) => (RErr redis_WrongType, db)
      end
  | SREM key member =>
      match peek now db key with
      | None => (RInt 0, db)
      | Some (Entry (VSet s) ex) =>
          (RInt (if decide (member ∈ s) then 1 else 0),
           if decide (s ∖ {[ member ]} = ∅) then delete key db
           else <[key := Entry (VSet (s ∖ {[ member ]})) ex]> db)
      | Some (Entry (VString _) _) => (RErr redis_WrongType, db)
      end
  | SMEMBERS key =>
      match peek now db key with
      | None => (RStrings [], db)
      | Some (Entry (VSet s) _) => (RStrings (elements s), db)
      | Some (Entry (VString _) _) => (RErr redis_WrongType, db)
      end
  | EXPIRE key expiration =>
      match peek now db key with
      | None => (RInt 0, db)
      | Some (Entry v _) =>
          (RInt 1,
           if 0 <? formatSec expiration
           then <[key := Entry v (Some (now + whole_seconds expiration))]> db
           else delete key db)
      end
  end.

(** [cmd.Err()] *)
Definition Err (r : reply) : option error :=
  match r with RErr e => Some e | _ => None end.

(** A pipeline: the queued commands run in order, each on the key space
    left by the one before; a failing command does not stop the others. *)
Fixpoint run (now : Z) (cmds : list cmd) (db : gmap string entry)
  : list reply * gmap string entry :=
  match cmds with
  | [] => ([], db)
  | c :: cmds' =>
      let '(r, db1) := exec now c db in
      let '(rs, db2) := run now cmds' db1 in
      (r :: rs, db2)
  end.

(** [cmdsFirstErr] *)
Fixpoint first_error (rs : list reply) : option error :=
  match rs with
  | [] => None
  | r :: rs' => match Err r with Some e => Some e | None => first_error rs' end
  end.

(** [pipe.Exec]: the replies, the error of the first failed command, and
    the key space afterwards. *)
Definition Pipeline_Exec (now : Z) (cmds : list cmd) (db : gmap string entry)
  : list reply * option error * gmap string entry :=
  let '(rs, db') := run now cmds db in (rs, first_error rs, db').

End redis.

(** ** internal/database: the key scheme *)

Module database.

Definition SessionKey (tmsi : string) : string := "sess:" ++ tmsi.
Definition IMSIIndexKey (imsi : string) : string := "idx:imsi:" ++ imsi.
Definition MSISDNIndexKey (msisdn : string) : string := "idx:msisdn:" ++ msisdn.

End database.

(** ** Results of store operations *)

(** What a call leaves behind: either the recursion budget ran out before
    the call returned, or it returned a Go result (an error or a value)
    together with the key space it left. *)
Inductive outcome (A : Type) : Type :=
  | OutOfFuel
  | Ret (r : error + A) (db : gmap string redis.entry).
Arguments OutOfFuel {A}.
Arguments Ret {A} r db.

(** Sequencing in the style of Go's [if err != nil { return err }]. *)
Definition bind {A B : Type} (m : outcome A)
    (k : A → gmap string redis.entry → outcome B) : outcome B :=
  match m with
  | OutOfFuel => OutOfFuel
  | Ret (inl err) db => Ret (inl err) db
  | Ret (inr a) db => k a db
  end.

(** [pipe.Exec] followed by [if err != nil { return fmt.Errorf(msg, err) }]. *)
Definition exec_pipeline {A : Type} (now : Z) (cmds : list redis.cmd) (msg : string)
    (a : A) (db : gmap string redis.entry) : outcome A :=
  match redis.Pipeline_Exec now cmds db with
  | (_, Some err, db') => Ret (inl (Wrapf msg err)) db'
  | (_, None, db') => Ret (inr a) db'
  end.

(** ** internal/repository *)

Module repository.
Import domain database.

Section SessionRepository.
(** The receiver's [config] field. *)
Variable r_config : config.SessionConfig.

(** A pointer argument may be nil: [None]. *)
Definition validateSession (session : option Session) : option error :=
  match session with
  | None => Some (Errorf "session cannot be nil")
  | Some s =>
      if decide (TMSI s = "") then Some ErrInvalidTMSI
      else if decide (IMSI s = "") then Some ErrInvalidIMSI
      else if decide (MSISDN s = "") then Some ErrInvalidMSISDN
      else None
  end.

(** [Create] writes through its pointer argument; the value returned on
    success is the session as the caller sees it afterwards.  By the
    convention on [encoding/json], [sessionData] is the session itself, and
    the error of [json.Marshal] does not occur. *)
Definition Create (now : Z) (session : Session) (db : gmap string redis.entry)
  : outcome Session :=
  match validateSession (Some session) with
  | Some err => Ret (inl err) db
  | None =>
      let session :=
        if IsZero (AttachTime session) then with_AttachTime now session
        else session in
      let session := with_LastUpdate now session in
      let sessionData := session in
      let sessionKey := SessionKey (TMSI session) in
      let imsiIndexKey := IMSIIndexKey (IMSI session) in
      let msisdnIndexKey := MSISDNIndexKey (MSISDN session) in
      exec_pipeline now
        [ redis.SET sessionKey sessionData (config.DefaultTTL r_config);
          redis.SADD imsiIndexKey (TMSI session);
          redis.EXPIRE imsiIndexKey (config.DefaultTTL r_config);
          redis.SADD msisdnIndexKey (TMSI session);
          redis.EXPIRE msisdnIndexKey (config.DefaultTTL r_config) ]
        "failed to create session" session db
  end.

(** [Get] and [RenewTTL] call each other.  The error of [RenewTTL] is
    printed by [Get] and dropped. *)
Fixpoint Get (fuel : nat) (now : Z) (tmsi : string) (db : gmap string redis.entry)
  : outcome Session :=
  match fuel with
  | O => OutOfFuel
  | S fuel' =>
      if decide (tmsi = "") then Ret (inl ErrInvalidTMSI) db
      else
        match redis.exec now (redis.GET (SessionKey tmsi)) db with
        | (redis.RErr redis_Nil, db1) => Ret (inl ErrSessionNotFound) db1
        | (redis.RErr err, db1) => Ret (inl (Wrapf "failed to get session" err)) db1
        | (redis.RString sessionData, db1) =>
            let session := sessionData in
            match RenewTTL fuel' now tmsi db1 with
            | OutOfFuel => OutOfFuel
            | Ret _ db2 => Ret (inr session) db2
            end
        | (_, db1) => Ret (inl (Errorf "redis: unexpected reply")) db1
        end
  end
with RenewTTL (fuel : nat) (now : Z) (tmsi : string) (db : gmap string redis.entry)
  : outcome unit :=
  match fuel with
  | O => OutOfFuel
  | S fuel' =>
      if decide (tmsi = "") then Ret (inl ErrInvalidTMSI) db
      else
        bind (Get fuel' now tmsi db) (λ session db1,
          exec_pipeline now
            [ redis.EXPIRE (SessionKey tmsi) (config.DefaultTTL r_config);
              redis.EXPIRE (IMSIIndexKey (IMSI session)) (config.DefaultTTL r_config);
              redis.EXPIRE (MSISDNIndexKey (MSISDN session)) (config.DefaultTTL r_config) ]
            "failed to renew TTL" tt db1)
  end.

Definition Update (fuel : nat) (now : Z) (session : Session)
    (db : gmap string redis.entry) : outcome Session :=
  match validateSession (Some session) with
  | Some err => Ret (inl err) db
  | None =>
      bind (Get fuel now (TMSI session) db) (λ existingSession db1,
        let session := with_LastUpdate now session in
        let session := with_AttachTime (AttachTime existingSession) session in
        let sessionData := session in
        let imsi_cmds :=
          if decide (IMSI existingSession = IMSI session) then []
          else [ redis.SREM (IMSIIndexKey (IMSI existingSession)) (TMSI session);
                 redis.SADD (IMSIIndexKey (IMSI session)) (TMSI session);
                 redis.EXPIRE (IMSIIndexKey (IMSI session)) (config.DefaultTTL r_config) ] in
        let msisdn_cmds :=
          if decide (MSISDN existingSession = MSISDN session) then []
          else [ redis.SREM (MSISDNIndexKey (MSISDN existingSession)) (TMSI session);
                 redis.SADD (MSISDNIndexKey (MSISDN session)) (TMSI session);
                 redis.EXPIRE (MSISDNIndexKey (MSISDN session)) (config.DefaultTTL r_config) ] in
        exec_pipeline now
          (redis.SET (SessionKey (TMSI session)) sessionData (config.DefaultTTL r_config)
             :: imsi_cmds ++ msisdn_cmds)
          "failed to update session" session db1)
  end.

Definition Delete (fuel : nat) (now : Z) (tmsi : string)
    (db : gmap string redis.entry) : outcome unit :=
  if decide (tmsi = "") then Ret (inl ErrInvalidTMSI) db
  else
    bind (Get fuel now tmsi db) (λ session db1,
      exec_pipeline now
        [ redis.DEL (SessionKey tmsi);
          redis.SREM (IMSIIndexKey (IMSI session)) tmsi;
          redis.SREM (MSISDNIndexKey (MSISDN session)) tmsi ]
        "failed to delete session" tt db1).

(** The detached clean-up task.  It has no result; [None] means that its
    recursion budget ran out. *)
Definition cleanupExpiredIndex (fuel : nat) (now : Z) (tmsi : string)
    (db : gmap string redis.entry) : option (gmap string redis.entry) :=
  match Get fuel now tmsi db with
  | OutOfFuel => None
  | Ret (inl _) db1 => Some db1
  | Ret (inr session) db1 =>
      Some (redis.Pipeline_Exec now
              [ redis.SREM (IMSIIndexKey (IMSI session)) tmsi;
                redis.SREM (MSISDNIndexKey (MSISDN session)) tmsi ] db1).2
  end.

(** The second loop of [QueryByMultiple], over the replies of the
    pipelined GETs paired with their TMSI.  The clean-up task started by
    [go] is run at the point where it is started. *)
Fixpoint collect (fuel : nat) (now : Z) (cmds : list (string * redis.reply))
    (sessions : list Session) (db : gmap string redis.entry)
  : outcome (list Session) :=
  match cmds with
  | [] => Ret (inr sessions) db
  | (tmsi, redis.RErr redis_Nil) :: rest =>
      match cleanupExpiredIndex fuel now tmsi db with
      | None => OutOfFuel
      | Some db1 => collect fuel now rest sessions db1
      end
  | (tmsi, redis.RErr err) :: rest =>
      Ret (inl (Wrapf ("failed to get session " ++ tmsi) err)) db
  | (tmsi, redis.RString data) :: rest =>
      collect fuel now rest (sessions ++ [data]) db
  | (tmsi, _) :: rest =>
      Ret (inl (Errorf "redis: unexpected reply")) db
  end.

Definition QueryByMultiple (fuel : nat) (now : Z) (tmsiList : list string)
    (db : gmap string redis.entry) : outcome (list Session) :=
  match tmsiList with
  | [] => Ret (inr []) db
  | _ =>
      match redis.Pipeline_Exec now
              (map (λ tmsi, redis.GET (SessionKey tmsi)) tmsiList) db with
      | (cmds, Some redis_Nil, db1)
      | (cmds, None, db1) => collect fuel now (zip tmsiList cmds) [] db1
      | (_, Some err, db1) =>
          Ret (inl (Wrapf "failed to query multiple sessions" err)) db1
      end
  end.

Definition QueryByIMSI (fuel : nat) (now : Z) (imsi : string)
    (db : gmap string redis.entry) : outcome (list Session) :=
  if decide (imsi = "") then Ret (inl ErrInvalidIMSI) db
  else
    match redis.exec now (redis.SMEMBERS (IMSIIndexKey imsi)) db with
    | (redis.RErr err, db1) => Ret (inl (Wrapf "failed to query by IMSI" err)) db1
    | (redis.RStrings [], db1) => Ret (inr []) db1
    | (redis.RStrings tmsiList, db1) => QueryByMultiple fuel now tmsiList db1
    | (_, db1) => Ret (inl (Errorf "redis: unexpected reply")) db1
    end.

Definition QueryByMSISDN (fuel : nat) (now : Z) (msisdn : string)
    (db : gmap string redis.entry) : outcome (list Session) :=
  if decide (msisdn = "") then Ret (inl ErrInvalidMSISDN) db
  else
    match redis.exec now (redis.SMEMBERS (MSISDNIndexKey msisdn)) db with
    | (redis.RErr err, db1) => Ret (inl (Wrapf "failed to query by MSISDN" err)) db1
    | (redis.RStrings [], db1) => Ret (inr []) db1
    | (redis.RStrings tmsiList, db1) => QueryByMultiple fuel now tmsiList db1
    | (_, db1) => Ret (inl (Errorf "redis: unexpected reply")) db1
    end.

End SessionRepository.

End repository.

(** ** internal/service *)

Module service.
Import domain.

(** The interface [domain.SessionRepository], as far as the service layer
    calls it. *)
Class SessionRepository : Type := {
  repo_Create : Z → Session → gmap string redis.entry → outcome Session;
  repo_Get : nat → Z → string → gmap string redis.entry → outcome Session;
  repo_Update : nat → Z → Session → gmap string redis.entry → outcome Session;
  repo_Delete : nat → Z → string → gmap string redis.entry → outcome unit;
  repo_RenewTTL : nat → Z → string → gmap string redis.entry → outcome unit
}.

Section SessionService.
(** The receiver's [repo] field. *)
Context {repo : SessionRepository}.

Definition validateSessionForCreation (session : option Session) : option error :=
  match session with
  | None => Some (Errorf "session cannot be nil")
  | Some s =>
      if decide (TMSI s = "") then Some ErrInvalidTMSI
      else if decide (IMSI s = "") then Some ErrInvalidIMSI
      else if decide (MSISDN s = "") then Some ErrInvalidMSISDN
      else if Z.of_nat (String.length (TMSI s)) <? 4
           then Some (Errorf "TMSI must be at least 4 characters long")
      else if Z.of_nat (String.length (IMSI s)) <? 14
           then Some (Errorf "IMSI must be at least 14 characters long")
      else if Z.of_nat (String.length (MSISDN s)) <? 10
           then Some (Errorf "MSISDN must be at least 10 characters long")
      else None
  end.

Definition validateSessionForUpdate (session : option Session) : option error :=
  match session with
  | None => Some (Errorf "session cannot be nil")
  | Some s =>
      if decide (TMSI s = "") then Some ErrInvalidTMSI
      else if decide (IMSI s = "") then Some ErrInvalidIMSI
      else if decide (MSISDN s = "") then Some ErrInvalidMSISDN
      else None
  end.

Definition isSessionExpired (session : Session) : bool := false.

Definition CreateSession (fuel : nat) (now : Z) (session : Session)
    (db : gmap string redis.entry) : outcome Session :=
  match validateSessionForCreation (Some session) with
  | Some err => Ret (inl err) db
  | None =>
      match repo_Get fuel now (TMSI session) db with
      | OutOfFuel => OutOfFuel
      | Ret (inr existingSession) db1 =>
          Ret (inl (Errorf ("session with TMSI " ++ TMSI session ++ " already exists"))) db1
      | Ret (inl _) db1 =>
          let session :=
            if decide (UEState session = "") then with_UEState "REGISTERED" session
            else session in
          let session :=
            match Capabilities session with
            | None => with_Capabilities (Some []) session
            | Some _ => session
            end in
          repo_Create now session db1
      end
  end.

Definition GetSession (fuel : nat) (now : Z) (tmsi : string)
    (db : gmap string redis.entry) : outcome Session :=
  if decide (tmsi = "") then Ret (inl ErrInvalidTMSI) db
  else
    bind (repo_Get fuel now tmsi db) (λ session db1,
      if isSessionExpired session
      then match repo_Delete fuel now tmsi db1 with
           | OutOfFuel => OutOfFuel
           | Ret _ db2 => Ret (inl ErrSessionExpired) db2
           end
      else Ret (inr session) db1).

Definition UpdateSession (fuel : nat) (now : Z) (session : Session)
    (db : gmap string redis.entry) : outcome Session :=
  match validateSessionForUpdate (Some session) with
  | Some err => Ret (inl err) db
  | None =>
      bind (repo_Get fuel now (TMSI session) db) (λ existingSession db1,
        let session := with_AttachTime (AttachTime existingSession) session in
        repo_Update fuel now session db1)
  end.

Definition DeleteSession (fuel : nat) (now : Z) (tmsi : string)
    (db : gmap string redis.entry) : outcome unit :=
  if decide (tmsi = "") then Ret (inl ErrInvalidTMSI) db
  else bind (repo_Get fuel now tmsi db) (λ _ db1, repo_Delete fuel now tmsi db1).

Definition RenewSession (fuel : nat) (now : Z) (tmsi : string)
    (db : gmap string redis.entry) : outcome unit :=
  if decide (tmsi = "") then Ret (inl ErrInvalidTMSI) db
  else bind (repo_Get fuel now tmsi db) (λ _ db1, repo_RenewTTL fuel now tmsi db1).

End SessionService.

End service.

(** [main.go]: the service runs over the Redis repository. *)
#[export] Instance redis_repository (cfg : config.SessionConfig)
  : service.SessionRepository := {|
  service.repo_Create := repository.Create cfg;
  service.repo_Get := repository.Get cfg;
  service.repo_Update := repository.Update cfg;
  service.repo_Delete := repository.Delete cfg;
  service.repo_RenewTTL := repository.RenewTTL cfg
|}.

(** ** Observations on the key space *)

Import domain database.

(** The session stored for [tmsi] and visible at [now], if any. *)
Definition live_record (now : Z) (db : gmap string redis.entry) (tmsi : string)
  : option Session :=
  match redis.peek now db (SessionKey tmsi) with
  | Some (redis.Entry (redis.VString d) _) => Some d
  | _ => None
  end.

(** The members of the set stored under [key] and visible at [now]. *)
Definition index_members (now : Z) (db : gmap string redis.entry) (key : string)
  : gset string :=
  match redis.peek now db key with
  | Some (redis.Entry (redis.VSet s) _) => s
  | _ => ∅
  end.

(** The key space a returning call leaves behind. *)
Definition after {A : Type} (o : outcome A) : option (gmap string redis.entry) :=
  match o with
  | OutOfFuel => None
  | Ret _ db => Some db
  end.

(** ** Sequences of operations *)

Inductive op : Type :=
  | OpCreate (session : Session)
  | OpGet (tmsi : string)
  | OpUpdate (session : Session)
  | OpDelete (tmsi : string)
  | OpRenewTTL (tmsi : string)
  | OpQueryByIMSI (imsi : string)
  | OpQueryByMSISDN (msisdn : string)
  | OpCreateSession (session : Session)
  | OpGetSession (tmsi : string)
  | OpUpdateSession (session : Session)
  | OpDeleteSession (tmsi : string)
  | OpRenewSession (tmsi : string).

(** The key space after one operation run at instant [now], when the
    operation returns there. *)
Definition run_op (cfg : config.SessionConfig) (fuel : nat) (now : Z) (o : op)
    (db : gmap string redis.entry) : option (gmap string redis.entry) :=
  match o with
  | OpCreate s => after (repository.Create cfg now s db)
  | OpGet t => after (repository.Get cfg fuel now t db)
  | OpUpdate s => after (repository.Update cfg fuel now s db)
  | OpDelete t => after (repository.Delete cfg fuel now t db)
  | OpRenewTTL t => after (repository.RenewTTL cfg fuel now t db)
  | OpQueryByIMSI i => after (repository.QueryByIMSI cfg fuel now i db)
  | OpQueryByMSISDN m => after (repository.QueryByMSISDN cfg fuel now m db)
  | OpCreateSession s => after (service.CreateSession (repo := redis_repository cfg) fuel now s db)
  | OpGetSession t => after (service.GetSession (repo := redis_repository cfg) fuel now t db)
  | OpUpdateSession s => after (service.UpdateSession (repo := redis_repository cfg) fuel now s db)
  | OpDeleteSession t => after (service.DeleteSession (repo := redis_repository cfg) fuel now t db)
  | OpRenewSession t => after (service.RenewSession (repo := redis_repository cfg) fuel now t db)
  end.

(** [reachable cfg now db]: the key space [db] is what a sequence of
    operations, each run at one instant and returning there, leaves of the
    empty key space; the instants do not decrease and the last of them is
    at most [now].  A call on a visible record does not return at one
    instant (C3), so that these are the key spaces that creations and
    failed look-ups lead to; the key spaces that a call can leave when a
    record expires under it are among the [written] ones below. *)
Inductive reachable (cfg : config.SessionConfig) : Z → gmap string redis.entry → Prop :=
  | reach_empty now : reachable cfg now ∅
  | reach_step now now' fuel o db db' :
      reachable cfg now db →
      now ≤ now' →
      run_op cfg fuel now' o db = Some db' →
      reachable cfg now' db'.

(** Runs a script of timed operations from instant [start]; the result is
    the instant of the last operation and the key space it left, or [None]
    when an operation does not return or the instants decrease. *)
Fixpoint run_script (cfg : config.SessionConfig) (fuel : nat) (start : Z)
    (script : list (Z * op)) (db : gmap string redis.entry)
  : option (Z * gmap string redis.entry) :=
  match script with
  | [] => Some (start, db)
  | (now, o) :: rest =>
      if start <=? now then
        match run_op cfg fuel now o db with
        | Some db' => run_script cfg fuel now rest db'
        | None => None
        end
      else None
  end.

(** The key space a script leaves of the empty one ([∅] if it fails). *)
Definition script_db (cfg : config.SessionConfig) (fuel : nat)
    (script : list (Z * op)) : gmap string redis.entry :=
  match script with
  | [] => ∅
  | (start, _) :: _ =>
      match run_script cfg fuel start script ∅ with
      | Some (_, db) => db
      | None => ∅
      end
  end.

(** ** The scenario of the repository tests *)

(** Thirty minutes, a day and a minute. *)
Definition test_cfg : config.SessionConfig :=
  config.mkSessionConfig 1800000 86400000 60000.

(** A default TTL of one second and a half, between a second and a day. *)
Definition odd_cfg : config.SessionConfig :=
  config.mkSessionConfig 1500 86400000 1000.

Definition test_session : Session :=
  mkSession "12345678" "123456789012345" "1234567890" 0 0 "gNB001" "TAI001"
            "REGISTERED" (Some ["5G"; "4G"])
            (mkSecurityContext "test-kamf" "AES" "1" 1).

(** The same subscriber's record under another IMSI. *)
Definition moved_session : Session :=
  mkSession "12345678" "999999999999999" "1234567890" 0 0 "gNB001" "TAI001"
            "REGISTERED" (Some ["5G"; "4G"])
            (mkSecurityContext "test-kamf" "AES" "1" 1).

(** The update of the repository test: the created session with another
    base station and tracking area. *)
Definition updated_session : Session :=
  mkSession "12345678" "123456789012345" "1234567890" 0 0 "gNB002" "TAI002"
            "REGISTERED" (Some ["5G"; "4G"])
            (mkSecurityContext "test-kamf" "AES" "1" 1).

(** A second session of the first IMSI. *)
Definition other_session : Session :=
  mkSession "87654321" "123456789012345" "0987654321" 0 0 "" "" "" None
            (mkSecurityContext "" "" "" 0).

(** A record whose TMSI is one character short of the minimum. *)
Definition short_session : Session :=
  mkSession "abc" "123456789012345" "1234567890" 0 0 "" "" "" None
            (mkSecurityContext "" "" "" 0).

(** The key space after the test session was created at instant 1000. *)
Definition test_db : gmap string redis.entry :=
  script_db test_cfg 1 [(1000, OpCreate test_session)].

(** ** Specification vocabulary *)

(** Session keys hold sessions filed under their own TMSI, index keys hold
    sets. *)
Definition well_typed (db : gmap string redis.entry) : Prop :=
  (∀ t e, db !! SessionKey t = Some e →
          ∃ s, redis.val e = redis.VString s ∧ TMSI s = t) ∧
  (∀ i e, db !! IMSIIndexKey i = Some e → ∃ m, redis.val e = redis.VSet m) ∧
  (∀ i e, db !! MSISDNIndexKey i = Some e → ∃ m, redis.val e = redis.VSet m).

(** The session as [Create] stores it at instant [now]. *)
Definition stamped (now : Z) (s : Session) : Session :=
  with_LastUpdate now
    (if IsZero (AttachTime s) then with_AttachTime now s else s).

(** Registering [member] in the set under [key] with a fresh expiry. *)
Definition index_add (now ttl : Z) (key member : string)
    (db : gmap string redis.entry) : gmap string redis.entry :=
  <[key := redis.Entry (redis.VSet ({[ member ]} ∪ index_members now db key))
                       (Some (now + ttl))]> db.

Definition holds_set_or_nothing (now : Z) (db : gmap string redis.entry)
    (key : string) : Prop :=
  ∀ d ex, redis.peek now db key ≠ Some (redis.Entry (redis.VString d) ex).

(** The key space [Create] leaves: the record, expiring one default TTL
    from now, and both index sets, expiring that TTL in whole seconds from
    now. *)
Definition created (cfg : config.SessionConfig) (now : Z) (s : Session)
    (db : gmap string redis.entry) : gmap string redis.entry :=
  index_add now (redis.whole_seconds (config.DefaultTTL cfg))
    (MSISDNIndexKey (MSISDN s)) (TMSI s)
    (index_add now (redis.whole_seconds (config.DefaultTTL cfg))
       (IMSIIndexKey (IMSI s)) (TMSI s)
       (<[SessionKey (TMSI s) :=
            redis.Entry (redis.VString (stamped now s))
                        (Some (now + config.DefaultTTL cfg))]> db)).

(** No expiry lies further ahead than [ttl]. *)
Definition bounded (ttl now : Z) (db : gmap string redis.entry) : Prop :=
  ∀ k e, db !! k = Some e → ∃ x, redis.expire_at e = Some x ∧ x ≤ now + ttl.

(** The longest time to live that the operations give a key: the default
    TTL for a record, that TTL in whole seconds (one second at least) for a
    key touched by EXPIRE. *)
Definition horizon (cfg : config.SessionConfig) : Z :=
  Z.max (config.DefaultTTL cfg) (redis.whole_seconds (config.DefaultTTL cfg)).

Definition Inv (ttl now : Z) (db : gmap string redis.entry) : Prop :=
  well_typed db ∧ bounded ttl now db.

(** Session keys hold strings and index keys hold sets, whatever the
    strings encode. *)
Definition typed (db : gmap string redis.entry) : Prop :=
  (∀ t e, db !! SessionKey t = Some e → ∃ s, redis.val e = redis.VString s) ∧
  (∀ i e, db !! IMSIIndexKey i = Some e → ∃ m, redis.val e = redis.VSet m) ∧
  (∀ i e, db !! MSISDNIndexKey i = Some e → ∃ m, redis.val e = redis.VSet m).

(** A TMSI that comes back under another IMSI: the test session is created
    through the service at instant 0, a second session of the same IMSI a
    thousand seconds later (which pushes the expiry of the IMSI's index set
    to 2800 seconds), and one millisecond after the thirty minutes, when
    the first record has expired, its TMSI is created again with another
    IMSI. *)
Definition stale_script : list (Z * op) :=
  [ (0, OpCreateSession test_session);
    (1000000, OpCreateSession other_session);
    (1800001, OpCreateSession moved_session) ].

Definition stale_db : gmap string redis.entry := script_db test_cfg 1 stale_script.

(** The TMSI and IMSI of every session a query returns ([[]] otherwise). *)
Definition returned_identities (o : outcome (list Session)) : list (string * string) :=
  match o with
  | Ret (inr l) _ => map (λ s, (TMSI s, IMSI s)) l
  | _ => []
  end.

(** The error of the operations that look a record up first, when there is
    none: the validation error of an empty TMSI, else [ErrSessionNotFound]. *)
Definition lookup_error (tmsi : string) : error :=
  if decide (tmsi = "") then ErrInvalidTMSI else ErrSessionNotFound.

(** The reply of a pipelined GET on a session key of a well-typed key space. *)
Definition GET_reply (now : Z) (db : gmap string redis.entry) (tmsi : string)
  : redis.reply :=
  match live_record now db tmsi with
  | Some d => redis.RString d
  | None => redis.RErr redis_Nil
  end.

(** ** internal/config: the whole configuration *)

Module config_file.

Record ServerConfig : Type := mkServerConfig {
  Server_Host : string;
  Server_Port : Z;
  Server_ReadTimeout : Z;
  Server_WriteTimeout : Z;
  Server_IdleTimeout : Z
}.

Record RedisConfig : Type := mkRedisConfig {
  Redis_Host : string;
  Redis_Port : Z;
  Redis_Password : string;
  Redis_DB : Z;
  Redis_PoolSize : Z;
  Redis_MinIdleConns : Z;
  Redis_DialTimeout : Z;
  Redis_ReadTimeout : Z;
  Redis_WriteTimeout : Z
}.

Record LoggingConfig : Type := mkLoggingConfig {
  Logging_Level : string;
  Logging_Format : string;
  Logging_Output : string
}.

Record MetricsConfig : Type := mkMetricsConfig {
  Metrics_Enabled : bool;
  Metrics_Port : Z;
  Metrics_Path : string
}.

Record Config : Type := mkConfig {
  Server : ServerConfig;
  Redis : RedisConfig;
  Session : config.SessionConfig;
  Logging : LoggingConfig;
  Metrics : MetricsConfig
}.

(** [validateConfig]: the two port checks, then the session checks
    ([config.validateConfig] above). *)
Definition validateConfig (c : Config) : option error :=
  if (Server_Port (Server c) <=? 0) || (65535 <? Server_Port (Server c))
  then Some (Errorf "invalid server port")
  else if (Redis_Port (Redis c) <=? 0) || (65535 <? Redis_Port (Redis c))
  then Some (Errorf "invalid Redis port")
  else config.validateConfig (Session c).

(** The values of [setDefaults]. *)
Definition defaults : Config :=
  mkConfig (mkServerConfig "0.0.0.0" 8080 30000 30000 60000)
           (mkRedisConfig "localhost" 6379 "" 0 10 5 5000 3000 3000)
           (config.mkSessionConfig 1800000 86400000 60000)
           (mkLoggingConfig "info" "json" "stdout")
           (mkMetricsConfig true 9090 "/metrics").

End config_file.

(** ** internal/domain: the validator of the domain tests *)

Module domain_test.

Definition validateSession (session : option Session) : option error :=
  match session with
  | None => Some (ValidationError "session" "session cannot be nil")
  | Some s =>
      if decide (TMSI s = "") then Some ErrInvalidTMSI
      else if decide (IMSI s = "") then Some ErrInvalidIMSI
      else if decide (MSISDN s = "") then Some ErrInvalidMSISDN
      else None
  end.

End domain_test.

(** ** internal/service: queries *)

Module service_query.

(** The query methods of the interface [domain.SessionRepository]. *)
Class SessionQueryRepository : Type := {
  repo_QueryByIMSI : nat → Z → string → gmap string redis.entry → outcome (list Session);
  repo_QueryByMSISDN : nat → Z → string → gmap string redis.entry → outcome (list Session)
}.

(** [mergeSessions] collects both slices in a Go map keyed by TMSI, the
    second slice after the first, and reads the map back.  Go leaves the
    order of that iteration open; the order chosen here is one of them, and
    nothing below depends on it. *)
Definition mergeSessions (sessions1 sessions2 : list Session) : list Session :=
  let sessionMap : gmap string Session :=
    foldl (λ m session, <[TMSI session := session]> m) ∅ sessions1 in
  let sessionMap :=
    foldl (λ m session, <[TMSI session := session]> m) sessionMap sessions2 in
  (map_to_list sessionMap).*2.

Definition filterActiveSessions (sessions : list Session) : list Session :=
  List.filter (λ session, negb (service.isSessionExpired session)) sessions.

Section SessionService.
Context {repo : SessionQueryRepository}.

Definition QuerySessions (fuel : nat) (now : Z) (imsi msisdn : string)
    (db : gmap string redis.entry) : outcome (list Session) :=
  bind (if decide (imsi = "") then Ret (inr []) db
        else repo_QueryByIMSI fuel now imsi db) (λ sessions db1,
    bind (if decide (msisdn = "") then Ret (inr sessions) db1
          else
            bind (repo_QueryByMSISDN fuel now msisdn db1) (λ msisdnSessions db2,
              Ret (inr (if decide (imsi = "") then msisdnSessions
                        else mergeSessions sessions msisdnSessions)) db2))
      (λ sessions db3, Ret (inr (filterActiveSessions sessions)) db3)).

End SessionService.

End service_query.

#[export] Instance redis_query_repository (cfg : config.SessionConfig)
  : service_query.SessionQueryRepository := {|
  service_query.repo_QueryByIMSI := repository.QueryByIMSI cfg;
  service_query.repo_QueryByMSISDN := repository.QueryByMSISDN cfg
|}.

(** ** internal/handler: the status of an error *)

Module handler.

#[export] Instance error_eq_dec : EqDecision error.
Proof. solve_decision. Defined.

(** [handleError] compares the error with the values of [internal/domain]
    one after the other.  Those values are pointers in Go; every error of
    these three types that the service and the repository return is one of
    them, so that comparing the values is comparing the pointers. *)
Definition handleError (err : error) : Z :=
  if decide (err = ErrSessionNotFound) then 404
  else if decide (err = ErrSessionExpired) then 410
  else if decide (err = ErrInvalidTMSI) then 400
  else if decide (err = ErrInvalidIMSI) then 400
  else if decide (err = ErrInvalidMSISDN) then 400
  else 500.

End handler.

(** ** More specification vocabulary *)

(** The record as [CreateSession] hands it to the repository: state and
    capabilities filled in when they are unset. *)
Definition defaulted (s : Session) : Session :=
  let s := if decide (UEState s = "") then with_UEState "REGISTERED" s else s in
  match Capabilities s with
  | None => with_Capabilities (Some []) s
  | Some _ => s
  end.

(** The two creations. *)
Definition is_create (o : op) : bool :=
  match o with
  | OpCreate _ | OpCreateSession _ => true
  | _ => false
  end.

(** What a key may hold: a session key holds a record that passes the
    repository validator and is filed under its own TMSI; an index key
    belongs to a non-empty identifier and holds a non-empty set of
    non-empty TMSIs. *)
Definition entry_shape (key : string) (e : redis.entry) : Prop :=
  match redis.val e with
  | redis.VString s =>
      key = SessionKey (TMSI s) ∧ repository.validateSession (Some s) = None
  | redis.VSet m =>
      m ≠ ∅ ∧ ("" ∉ m) ∧
      ∃ i, i ≠ "" ∧ (key = IMSIIndexKey i ∨ key = MSISDNIndexKey i)
  end.

(** An entry within reach: well shaped, and with an expiry at most [ttl]
    ahead of [now]. *)
Definition sound_entry (ttl now : Z) (key : string) (e : redis.entry) : Prop :=
  entry_shape key e ∧ ∃ x, redis.expire_at e = Some x ∧ x ≤ now + ttl.

Definition sound (ttl now : Z) (db : gmap string redis.entry) : Prop :=
  ∀ k e, db !! k = Some e → sound_entry ttl now k e.

(** ** The write batches of the repository *)

(** The commands that the writing functions of the repository queue in
    their pipeline, as functions of the records they hold at that point:
    [session] is the record about to be stored ([Create], [Update]) or the
    record that [Get] handed back ([Delete], [RenewTTL], the clean-up
    task), and [existingSession] the record that [Get] handed back to
    [Update]. *)
Section Batches.
Variable cfg : config.SessionConfig.

Definition Create_batch (session : Session) : list redis.cmd :=
  [ redis.SET (SessionKey (TMSI session)) session (config.DefaultTTL cfg);
    redis.SADD (IMSIIndexKey (IMSI session)) (TMSI session);
    redis.EXPIRE (IMSIIndexKey (IMSI session)) (config.DefaultTTL cfg);
    redis.SADD (MSISDNIndexKey (MSISDN session)) (TMSI session);
    redis.EXPIRE (MSISDNIndexKey (MSISDN session)) (config.DefaultTTL cfg) ].

Definition RenewTTL_batch (tmsi : string) (session : Session) : list redis.cmd :=
  [ redis.EXPIRE (SessionKey tmsi) (config.DefaultTTL cfg);
    redis.EXPIRE (IMSIIndexKey (IMSI session)) (config.DefaultTTL cfg);
    redis.EXPIRE (MSISDNIndexKey (MSISDN session)) (config.DefaultTTL cfg) ].

Definition Update_batch (existingSession session : Session) : list redis.cmd :=
  redis.SET (SessionKey (TMSI session)) session (config.DefaultTTL cfg)
    :: (if decide (IMSI existingSession = IMSI session) then []
        else [ redis.SREM (IMSIIndexKey (IMSI existingSession)) (TMSI session);
               redis.SADD (IMSIIndexKey (IMSI session)) (TMSI session);
               redis.EXPIRE (IMSIIndexKey (IMSI session)) (config.DefaultTTL cfg) ])
    ++ (if decide (MSISDN existingSession = MSISDN session) then []
        else [ redis.SREM (MSISDNIndexKey (MSISDN existingSession)) (TMSI session);
               redis.SADD (MSISDNIndexKey (MSISDN session)) (TMSI session);
               redis.EXPIRE (MSISDNIndexKey (MSISDN session)) (config.DefaultTTL cfg) ]).

Definition Delete_batch (tmsi : string) (session : Session) : list redis.cmd :=
  [ redis.DEL (SessionKey tmsi);
    redis.SREM (IMSIIndexKey (IMSI session)) tmsi;
    redis.SREM (MSISDNIndexKey (MSISDN session)) tmsi ].

Definition cleanup_batch (tmsi : string) (session : Session) : list redis.cmd :=
  [ redis.SREM (IMSIIndexKey (IMSI session)) tmsi;
    redis.SREM (MSISDNIndexKey (MSISDN session)) tmsi ].

(** The batches that can be sent: [Create] and [Update] have validated the
    record by then, the other three have found their TMSI non-empty. *)
Inductive batch : list redis.cmd → Prop :=
  | batch_Create session :
      repository.validateSession (Some session) = None →
      batch (Create_batch session)
  | batch_Update existingSession session :
      repository.validateSession (Some session) = None →
      batch (Update_batch existingSession session)
  | batch_Delete tmsi session :
      tmsi ≠ "" → batch (Delete_batch tmsi session)
  | batch_RenewTTL tmsi session :
      tmsi ≠ "" → batch (RenewTTL_batch tmsi session)
  | batch_cleanup tmsi session :
      tmsi ≠ "" → batch (cleanup_batch tmsi session).

(** [written now db]: the key space [db] is what some sequence of such
    batches, sent at non-decreasing instants up to [now] with whatever
    records, leaves of the empty key space.  Every command that changes the
    key space is sent in one of these batches, so that this covers every key
    space the operations can leave when they run one after the other, also
    those left by a call under which a record expired (when [Get] hands
    back a record that is no longer stored and the caller's batch runs
    after all). *)
Inductive written : Z → gmap string redis.entry → Prop :=
  | written_empty now : written now ∅
  | written_later now now' db :
      written now db → now ≤ now' → written now' db
  | written_batch now cmds db :
      written now db → batch cmds → written now (redis.run now cmds db).2.

End Batches.

(** ** Facts about the key scheme *)

Lemma SessionKey_inj a b : SessionKey a = SessionKey b → a = b.
Proof. unfold SessionKey; cbv [String.append]; intros H; congruence. Qed.

Lemma IMSIIndexKey_inj a b : IMSIIndexKey a = IMSIIndexKey b → a = b.
Proof. unfold IMSIIndexKey; cbv [String.append]; intros H; congruence. Qed.

Lemma MSISDNIndexKey_inj a b : MSISDNIndexKey a = MSISDNIndexKey b → a = b.
Proof. unfold MSISDNIndexKey; cbv [String.append]; intros H; congruence. Qed.

Lemma SessionKey_IMSIIndexKey a b : SessionKey a ≠ IMSIIndexKey b.
Proof. unfold SessionKey, IMSIIndexKey; cbv [String.append]; congruence. Qed.

Lemma SessionKey_MSISDNIndexKey a b : SessionKey a ≠ MSISDNIndexKey b.
Proof. unfold SessionKey, MSISDNIndexKey; cbv [String.append]; congruence. Qed.

Lemma IMSIIndexKey_MSISDNIndexKey a b : IMSIIndexKey a ≠ MSISDNIndexKey b.
Proof. unfold IMSIIndexKey, MSISDNIndexKey; cbv [String.append]; congruence. Qed.

Create HintDb keys.
#[local] Hint Resolve SessionKey_IMSIIndexKey SessionKey_MSISDNIndexKey
  IMSIIndexKey_MSISDNIndexKey : keys.

(** ** Facts about single commands *)

Lemma peek_Some now db key e :
  redis.peek now db key = Some e ↔ db !! key = Some e ∧ redis.live now e = true.
Proof.
  unfold redis.peek. destruct (db !! key) as [e'|]; [|split; [done|by intros [? _]]].
  destruct (redis.live now e') eqn:Hl; split.
  - by intros [= ->].
  - by intros [[= ->] _].
  - done.
  - intros [[= ->] ?]. congruence.
Qed.

Lemma peek_insert_eq now db key e :
  redis.peek now (<[key := e]> db) key = if redis.live now e then Some e else None.
Proof. unfold redis.peek. by rewrite lookup_insert_eq. Qed.

Lemma peek_insert_ne now db key key' e :
  key ≠ key' → redis.peek now (<[key := e]> db) key' = redis.peek now db key'.
Proof. intros. unfold redis.peek. by rewrite lookup_insert_ne. Qed.

Lemma live_mono now now' e :
  now ≤ now' → redis.live now' e = true → redis.live now e = true.
Proof.
  unfold redis.live. destruct (redis.expire_at e); [|done].
  rewrite !Z.ltb_lt. lia.
Qed.

Lemma live_record_Some now db tmsi s :
  live_record now db tmsi = Some s ↔
  ∃ ex, redis.peek now db (SessionKey tmsi) = Some (redis.Entry (redis.VString s) ex).
Proof.
  unfold live_record.
  destruct (redis.peek now db (SessionKey tmsi)) as [[[d|m] ex]|]; split;
    try (by intros [? [=]]); try done.
  - intros [= ->]. eauto.
  - by intros [? [= -> _]].
Qed.

Lemma exec_GET_live now db tmsi s :
  live_record now db tmsi = Some s →
  redis.exec now (redis.GET (SessionKey tmsi)) db = (redis.RString s, db).
Proof. intros [ex H]%live_record_Some. simpl. by rewrite H. Qed.

Lemma exec_GET_db now db key : (redis.exec now (redis.GET key) db).2 = db.
Proof. simpl. by destruct (redis.peek now db key) as [[[d|m] ex]|]. Qed.

Lemma run_GETs_db now keys db :
  (redis.run now (map redis.GET keys) db).2 = db.
Proof.
  induction keys as [|k keys IH]; [done|].
  cbn [map redis.run].
  pose proof (exec_GET_db now db k) as Hk.
  destruct (redis.exec now (redis.GET k) db) as [r db1]. simpl in Hk. subst db1.
  destruct (redis.run now (map redis.GET keys) db) as [rs db2]. simpl in *. done.
Qed.

(** ** [Get] and [RenewTTL] on a visible record *)

Section Recursion.
Variable cfg : config.SessionConfig.

Lemma Get_S fuel now tmsi db :
  repository.Get cfg (S fuel) now tmsi db =
  if decide (tmsi = "") then Ret (inl ErrInvalidTMSI) db
  else
    match redis.exec now (redis.GET (SessionKey tmsi)) db with
    | (redis.RErr redis_Nil, db1) => Ret (inl ErrSessionNotFound) db1
    | (redis.RErr err, db1) => Ret (inl (Wrapf "failed to get session" err)) db1
    | (redis.RString sessionData, db1) =>
        match repository.RenewTTL cfg fuel now tmsi db1 with
        | OutOfFuel => OutOfFuel
        | Ret _ db2 => Ret (inr sessionData) db2
        end
    | (_, db1) => Ret (inl (Errorf "redis: unexpected reply")) db1
    end.
Proof. reflexivity. Qed.

Lemma RenewTTL_S fuel now tmsi db :
  repository.RenewTTL cfg (S fuel) now tmsi db =
  if decide (tmsi = "") then Ret (inl ErrInvalidTMSI) db
  else
    bind (repository.Get cfg fuel now tmsi db) (λ session db1,
      exec_pipeline now
        [ redis.EXPIRE (SessionKey tmsi) (config.DefaultTTL cfg);
          redis.EXPIRE (IMSIIndexKey (IMSI session)) (config.DefaultTTL cfg);
          redis.EXPIRE (MSISDNIndexKey (MSISDN session)) (config.DefaultTTL cfg) ]
        "failed to renew TTL" tt db1).
Proof. reflexivity. Qed.

(** While the record of a non-empty TMSI is visible, neither function
    returns, whatever the recursion budget. *)
Lemma Get_RenewTTL_live fuel now tmsi db s :
  tmsi ≠ "" →
  live_record now db tmsi = Some s →
  repository.Get cfg fuel now tmsi db = OutOfFuel ∧
  repository.RenewTTL cfg fuel now tmsi db = OutOfFuel.
Proof.
  intros Hne Hlive. induction fuel as [|fuel [IHG IHR]]; [done|].
  split.
  - rewrite Get_S, decide_False by done.
    rewrite (exec_GET_live _ _ _ _ Hlive). by rewrite IHR.
  - rewrite RenewTTL_S, decide_False by done. by rewrite IHG.
Qed.

(** Without a visible entry under the session key, [Get] reports
    [ErrSessionNotFound] and leaves the key space alone. *)
Lemma Get_missing fuel now tmsi db :
  tmsi ≠ "" →
  redis.peek now db (SessionKey tmsi) = None →
  repository.Get cfg (S fuel) now tmsi db = Ret (inl ErrSessionNotFound) db.
Proof.
  intros Hne Hp. rewrite Get_S, decide_False by done. simpl. by rewrite Hp.
Qed.

(** At one instant, [Get] returns only with an error and with the key
    space untouched. *)
Lemma Get_Ret fuel now tmsi db r db' :
  repository.Get cfg fuel now tmsi db = Ret r db' →
  db' = db ∧ ∃ e, r = inl e.
Proof.
  destruct fuel as [|fuel]; [done|].
  rewrite Get_S. case_decide as Ht; [intros [= <- <-]; eauto|].
  destruct (live_record now db tmsi) as [s|] eqn:Hlive.
  - rewrite (exec_GET_live _ _ _ _ Hlive).
    destruct (Get_RenewTTL_live fuel now tmsi db s Ht Hlive) as [_ ->]. done.
  - unfold live_record in Hlive. simpl.
    destruct (redis.peek now db (SessionKey tmsi)) as [[[d|m] ex]|]; [done| |];
      intros [= <- <-]; eauto.
Qed.

(** At one instant, [Get] returns exactly when it has nothing to return:
    for an empty TMSI or when no record is visible.  One unit of budget is
    then enough. *)
Lemma Get_returns_iff fuel now tmsi db :
  (∃ r db', repository.Get cfg (S fuel) now tmsi db = Ret r db') ↔
  tmsi = "" ∨ live_record now db tmsi = None.
Proof.
  split.
  - intros (r & db' & HG).
    destruct (decide (tmsi = "")) as [|Hne]; [by left|right].
    destruct (live_record now db tmsi) as [s|] eqn:Hlive; [|done].
    destruct (Get_RenewTTL_live (S fuel) now tmsi db s Hne Hlive) as [HG' _].
    congruence.
  - rewrite Get_S. intros [->|Hlive].
    + rewrite decide_True by done. eauto.
    + case_decide; [eauto|]. unfold live_record in Hlive. simpl.
      destruct (redis.peek now db (SessionKey tmsi)) as [[[d|m] ex]|]; [done|eauto..].
Qed.

(** A result, once reached, does not depend on the budget. *)
Lemma Get_fuel_mono fuel now tmsi db r db' :
  repository.Get cfg fuel now tmsi db = Ret r db' →
  repository.Get cfg (S fuel) now tmsi db = Ret r db'.
Proof.
  destruct fuel as [|fuel]; [done|].
  rewrite !Get_S. case_decide; [done|].
  destruct (live_record now db tmsi) as [s|] eqn:Hlive.
  - rewrite (exec_GET_live _ _ _ _ Hlive).
    by destruct (Get_RenewTTL_live fuel now tmsi db s ltac:(done) Hlive) as [_ ->].
  - unfold live_record in Hlive. simpl.
    by destruct (redis.peek now db (SessionKey tmsi)) as [[[d|m] ex]|].
Qed.

Lemma RenewTTL_Ret fuel now tmsi db r db' :
  repository.RenewTTL cfg fuel now tmsi db = Ret r db' →
  db' = db ∧ ∃ e, r = inl e.
Proof.
  destruct fuel as [|fuel]; [done|].
  rewrite RenewTTL_S. case_decide as Ht; [intros [= <- <-]; eauto|].
  destruct (repository.Get cfg fuel now tmsi db) as [|r0 db0] eqn:HG; [done|].
  apply Get_Ret in HG as [-> [e ->]]. simpl. intros [= <- <-]; eauto.
Qed.

Lemma Update_Ret fuel now session db r db' :
  repository.Update cfg fuel now session db = Ret r db' →
  db' = db ∧ ∃ e, r = inl e.
Proof.
  unfold repository.Update.
  destruct (repository.validateSession (Some session)) as [err|];
    [intros [= <- <-]; eauto|].
  destruct (repository.Get cfg fuel now (TMSI session) db) as [|r0 db0] eqn:HG; [done|].
  apply Get_Ret in HG as [-> [e ->]]. simpl. intros [= <- <-]; eauto.
Qed.

Lemma Delete_Ret fuel now tmsi db r db' :
  repository.Delete cfg fuel now tmsi db = Ret r db' →
  db' = db ∧ ∃ e, r = inl e.
Proof.
  unfold repository.Delete. case_decide as Ht; [intros [= <- <-]; eauto|].
  destruct (repository.Get cfg fuel now tmsi db) as [|r0 db0] eqn:HG; [done|].
  apply Get_Ret in HG as [-> [e ->]]. simpl. intros [= <- <-]; eauto.
Qed.

Lemma cleanupExpiredIndex_Some fuel now tmsi db db' :
  repository.cleanupExpiredIndex cfg fuel now tmsi db = Some db' → db' = db.
Proof.
  unfold repository.cleanupExpiredIndex.
  destruct (repository.Get cfg fuel now tmsi db) as [|r0 db0] eqn:HG; [done|].
  apply Get_Ret in HG as [-> [e ->]]. by intros [= <-].
Qed.

Lemma collect_Ret fuel now cmds sessions db r db' :
  repository.collect cfg fuel now cmds sessions db = Ret r db' → db' = db.
Proof.
  revert sessions db.
  induction cmds as [|[tmsi rep] cmds IH]; intros sessions db; simpl.
  - by intros [= <- <-].
  - destruct rep as [e| |d|n|l]; try by intros [= <- <-].
    + destruct e; try by intros [= <- <-].
      destruct (repository.cleanupExpiredIndex cfg fuel now tmsi db) as [db1|] eqn:Hc;
        [|done].
      apply cleanupExpiredIndex_Some in Hc as ->. apply IH.
    + apply IH.
Qed.

Lemma QueryByMultiple_Ret fuel now tmsiList db r db' :
  repository.QueryByMultiple cfg fuel now tmsiList db = Ret r db' → db' = db.
Proof.
  unfold repository.QueryByMultiple, redis.Pipeline_Exec.
  destruct tmsiList as [|t l]; [by intros [= <- <-]|].
  pose proof (run_GETs_db now (map SessionKey (t :: l)) db) as Hdb.
  rewrite map_map in Hdb.
  destruct (redis.run now _ db) as [rs db1]. simpl in Hdb. subst db1.
  destruct (redis.first_error rs) as [[]|];
    first [apply collect_Ret | by intros [= <- <-]].
Qed.

Lemma QueryByIMSI_Ret fuel now imsi db r db' :
  repository.QueryByIMSI cfg fuel now imsi db = Ret r db' → db' = db.
Proof.
  unfold repository.QueryByIMSI. case_decide; [by intros [= <- <-]|]. simpl.
  destruct (redis.peek now db (IMSIIndexKey imsi)) as [[[d|m] ex]|];
    try by intros [= <- <-].
  destruct (elements m); [by intros [= <- <-]|apply QueryByMultiple_Ret].
Qed.

Lemma QueryByMSISDN_Ret fuel now msisdn db r db' :
  repository.QueryByMSISDN cfg fuel now msisdn db = Ret r db' → db' = db.
Proof.
  unfold repository.QueryByMSISDN. case_decide; [by intros [= <- <-]|]. simpl.
  destruct (redis.peek now db (MSISDNIndexKey msisdn)) as [[[d|m] ex]|];
    try by intros [= <- <-].
  destruct (elements m); [by intros [= <- <-]|apply QueryByMultiple_Ret].
Qed.

End Recursion.

(** ** The effect of [Create] on a well-typed key space *)

Lemma formatSec_pos dur : 0 < dur → 0 < redis.formatSec dur.
Proof.
  intros Hpos. unfold redis.formatSec, redis.Second.
  destruct (0 <? dur) eqn:H0; [|apply Z.ltb_ge in H0; lia].
  destruct (dur <? 1000) eqn:H1; simpl; [lia|].
  apply Z.ltb_ge in H1. apply Z.quot_str_pos. lia.
Qed.

Lemma whole_seconds_pos dur : 0 < dur → 0 < redis.whole_seconds dur.
Proof.
  intros H%formatSec_pos. unfold redis.whole_seconds, redis.Second. lia.
Qed.

(** From one second on, EXPIRE rounds down, by less than a second. *)
Lemma whole_seconds_le dur :
  redis.Second ≤ dur →
  redis.whole_seconds dur ≤ dur < redis.whole_seconds dur + redis.Second.
Proof.
  unfold redis.whole_seconds, redis.formatSec, redis.Second. intros Hle.
  assert ((dur <? 1000) = false) as -> by (apply Z.ltb_ge; lia).
  rewrite andb_false_r. rewrite Z.quot_div_nonneg by lia.
  pose proof (Z.div_mod dur 1000 ltac:(lia)).
  pose proof (Z.mod_pos_bound dur 1000 ltac:(lia)). lia.
Qed.

(** Below a second, EXPIRE rounds up to one second. *)
Lemma whole_seconds_short dur :
  0 < dur < redis.Second → redis.whole_seconds dur = redis.Second.
Proof.
  unfold redis.whole_seconds, redis.formatSec, redis.Second. intros [H0 H1].
  apply Z.ltb_lt in H0, H1. rewrite H0, H1. done.
Qed.

(** A whole number of seconds is kept as it is. *)
Lemma whole_seconds_exact dur :
  0 < dur → dur `mod` redis.Second = 0 → redis.whole_seconds dur = dur.
Proof.
  unfold redis.Second. intros Hpos Hmod.
  assert (1000 ≤ dur) as Hle.
  { pose proof (Z.div_mod dur 1000 ltac:(lia)).
    destruct (Z.le_gt_cases 1000 dur); [done|].
    rewrite Z.mod_small in Hmod by lia. lia. }
  unfold redis.whole_seconds, redis.formatSec, redis.Second.
  assert ((dur <? 1000) = false) as -> by (apply Z.ltb_ge; lia).
  rewrite andb_false_r. rewrite Z.quot_div_nonneg by lia.
  pose proof (Z.div_mod dur 1000 ltac:(lia)). lia.
Qed.

Lemma run_SADD_EXPIRE now ttl key member rest db :
  0 < ttl →
  holds_set_or_nothing now db key →
  ∃ n, redis.run now (redis.SADD key member :: redis.EXPIRE key ttl :: rest) db =
       (redis.RInt n :: redis.RInt 1 ::
          (redis.run now rest (index_add now (redis.whole_seconds ttl) key member db)).1,
        (redis.run now rest (index_add now (redis.whole_seconds ttl) key member db)).2).
Proof.
  intros Httl Hty. apply formatSec_pos, Z.ltb_lt in Httl.
  unfold index_add, index_members. cbn [redis.run redis.exec].
  destruct (redis.peek now db key) as [[[d|m] ex]|] eqn:Hp.
  - by destruct (Hty d ex).
  - apply peek_Some in Hp as [_ Hl].
    rewrite peek_insert_eq. unfold redis.live in *. simpl in *. rewrite Hl, Httl.
    rewrite insert_insert_eq.
    destruct (redis.run now rest _) as [rs db2]. eauto.
  - rewrite peek_insert_eq. simpl. rewrite Httl, insert_insert_eq.
    rewrite (right_id_L ∅ (∪)).
    destruct (redis.run now rest _) as [rs db2]. eauto.
Qed.

Lemma run_SET now ttl key d rest db :
  0 < ttl →
  redis.run now (redis.SET key d ttl :: rest) db =
  (redis.RStatus ::
     (redis.run now rest (<[key := redis.Entry (redis.VString d) (Some (now + ttl))]> db)).1,
   (redis.run now rest (<[key := redis.Entry (redis.VString d) (Some (now + ttl))]> db)).2).
Proof.
  intros Httl%Z.ltb_lt. cbn [redis.run redis.exec]. rewrite Httl.
  by destruct (redis.run now rest _).
Qed.

Lemma holds_set_insert_ne now db key key' e :
  key ≠ key' →
  holds_set_or_nothing now db key' →
  holds_set_or_nothing now (<[key := e]> db) key'.
Proof. intros Hne H d ex. rewrite peek_insert_ne by done. apply H. Qed.

Lemma well_typed_typed db : well_typed db → typed db.
Proof.
  intros (Hs & Hi & Hm). split; [|done].
  intros t e [s [Hv _]]%Hs. eauto.
Qed.

Lemma typed_imsi now db i :
  typed db → holds_set_or_nothing now db (IMSIIndexKey i).
Proof.
  intros (_ & Hi & _) d ex [Hl _]%peek_Some.
  apply Hi in Hl as [m Hm]. simpl in Hm. done.
Qed.

Lemma typed_msisdn now db i :
  typed db → holds_set_or_nothing now db (MSISDNIndexKey i).
Proof.
  intros (_ & _ & Hi) d ex [Hl _]%peek_Some.
  apply Hi in Hl as [m Hm]. simpl in Hm. done.
Qed.

Lemma well_typed_imsi now db i :
  well_typed db → holds_set_or_nothing now db (IMSIIndexKey i).
Proof. intros ?%well_typed_typed. by apply typed_imsi. Qed.

Lemma well_typed_msisdn now db i :
  well_typed db → holds_set_or_nothing now db (MSISDNIndexKey i).
Proof. intros ?%well_typed_typed. by apply typed_msisdn. Qed.

Lemma typed_empty : typed ∅.
Proof. repeat split; intros ? ?; by rewrite lookup_empty. Qed.

Lemma typed_created cfg now s db : typed db → typed (created cfg now s db).
Proof.
  intros (Hs & Hi & Hm). unfold created, index_add. repeat split.
  - intros t e. rewrite !lookup_insert_ne by auto with keys.
    destruct (decide (SessionKey (TMSI s) = SessionKey t)) as [Heq|Hne].
    + rewrite Heq, lookup_insert_eq. intros [= <-]. simpl. eauto.
    + rewrite lookup_insert_ne by done. apply Hs.
  - intros i e. rewrite lookup_insert_ne by auto with keys.
    destruct (decide (IMSIIndexKey (IMSI s) = IMSIIndexKey i)) as [Heq|Hne].
    + rewrite Heq, lookup_insert_eq. intros [= <-]. simpl. eauto.
    + rewrite !lookup_insert_ne by auto with keys. apply Hi.
  - intros i e.
    destruct (decide (MSISDNIndexKey (MSISDN s) = MSISDNIndexKey i)) as [Heq|Hne].
    + rewrite Heq, lookup_insert_eq. intros [= <-]. simpl. eauto.
    + rewrite !lookup_insert_ne by auto with keys. apply Hm.
Qed.

Section CreateEffect.
Variable cfg : config.SessionConfig.
Hypothesis Hcfg : config.validateConfig cfg = None.

Lemma DefaultTTL_pos : 0 < config.DefaultTTL cfg.
Proof.
  unfold config.validateConfig in Hcfg.
  destruct (config.DefaultTTL cfg <=? 0) eqn:H; [done|]. lia.
Qed.


Lemma Create_typed now s db :
  repository.validateSession (Some s) = None →
  typed db →
  repository.Create cfg now s db = Ret (inr (stamped now s)) (created cfg now s db).
Proof.
  intros Hv Hty. pose proof DefaultTTL_pos as Hpos.
  unfold repository.Create. rewrite Hv.
  fold (stamped now s).
  replace (TMSI (stamped now s)) with (TMSI s) by (unfold stamped; by destruct (IsZero _)).
  replace (IMSI (stamped now s)) with (IMSI s) by (unfold stamped; by destruct (IsZero _)).
  replace (MSISDN (stamped now s)) with (MSISDN s) by (unfold stamped; by destruct (IsZero _)).
  unfold exec_pipeline, redis.Pipeline_Exec.
  rewrite run_SET by done.
  set (db1 := <[SessionKey (TMSI s) := _]> db).
  destruct (run_SADD_EXPIRE now (config.DefaultTTL cfg) (IMSIIndexKey (IMSI s)) (TMSI s)
    [redis.SADD (MSISDNIndexKey (MSISDN s)) (TMSI s);
     redis.EXPIRE (MSISDNIndexKey (MSISDN s)) (config.DefaultTTL cfg)] db1 Hpos) as [n1 H1].
  { apply holds_set_insert_ne; [auto with keys|by apply typed_imsi]. }
  rewrite H1. clear H1.
  set (db2 := index_add _ _ _ _ db1).
  destruct (run_SADD_EXPIRE now (config.DefaultTTL cfg) (MSISDNIndexKey (MSISDN s)) (TMSI s)
    [] db2 Hpos) as [n2 H2].
  { apply holds_set_insert_ne; [auto with keys|].
    apply holds_set_insert_ne; [auto with keys|by apply typed_msisdn]. }
  rewrite H2. done.
Qed.

Lemma Create_well_typed now s db :
  repository.validateSession (Some s) = None →
  well_typed db →
  repository.Create cfg now s db = Ret (inr (stamped now s)) (created cfg now s db).
Proof. intros ? ?%well_typed_typed. by apply Create_typed. Qed.

End CreateEffect.

(** ** The store invariant *)


Lemma live_record_insert_ne n db key e t :
  key ≠ SessionKey t → live_record n (<[key := e]> db) t = live_record n db t.
Proof. intros. unfold live_record. by rewrite peek_insert_ne. Qed.

Lemma live_record_index_add n now ttl key member db t :
  key ≠ SessionKey t →
  live_record n (index_add now ttl key member db) t = live_record n db t.
Proof. apply live_record_insert_ne. Qed.

Lemma index_members_insert_ne n db key e key' :
  key ≠ key' → index_members n (<[key := e]> db) key' = index_members n db key'.
Proof. intros. unfold index_members. by rewrite peek_insert_ne. Qed.

Lemma index_members_index_add n now ttl key member db :
  index_members n (index_add now ttl key member db) key =
  if n <? now + ttl then {[ member ]} ∪ index_members now db key else ∅.
Proof.
  unfold index_add. unfold index_members at 1.
  rewrite peek_insert_eq. unfold redis.live. simpl.
  by destruct (n <? now + ttl).
Qed.

Lemma index_members_index_add_ne n now ttl key member db key' :
  key ≠ key' →
  index_members n (index_add now ttl key member db) key' = index_members n db key'.
Proof. apply index_members_insert_ne. Qed.

Lemma Inv_empty ttl now : Inv ttl now ∅.
Proof.
  split.
  - repeat split; intros ? ?; by rewrite lookup_empty.
  - intros ? ?. by rewrite lookup_empty.
Qed.

Lemma Inv_mono ttl now now' db : now ≤ now' → Inv ttl now db → Inv ttl now' db.
Proof.
  intros Hle (Hty & Hb). split; [done|].
  intros k e [x [Hx ?]]%Hb. exists x. split; [done|lia].
Qed.

Lemma DefaultTTL_horizon cfg : config.DefaultTTL cfg ≤ horizon cfg.
Proof. unfold horizon. lia. Qed.

Lemma whole_seconds_horizon cfg :
  redis.whole_seconds (config.DefaultTTL cfg) ≤ horizon cfg.
Proof. unfold horizon. lia. Qed.

Section InvariantCreate.
Variable cfg : config.SessionConfig.
Hypothesis Hcfg : config.validateConfig cfg = None.

Lemma well_typed_created now s db :
  well_typed db → well_typed (created cfg now s db).
Proof.
  intros (Hs & Hi & Hm). unfold created, index_add. repeat split.
  - intros t e. rewrite !lookup_insert_ne by auto with keys.
    destruct (decide (SessionKey (TMSI s) = SessionKey t)) as [Heq|Hne].
    + rewrite Heq, lookup_insert_eq. intros [= <-]. simpl.
      apply SessionKey_inj in Heq. eexists; split; [done|].
      rewrite <- Heq. unfold stamped. by destruct (IsZero _).
    + rewrite lookup_insert_ne by done. apply Hs.
  - intros i e. rewrite lookup_insert_ne by auto with keys.
    destruct (decide (IMSIIndexKey (IMSI s) = IMSIIndexKey i)) as [Heq|Hne].
    + rewrite Heq, lookup_insert_eq. intros [= <-]. simpl. eauto.
    + rewrite !lookup_insert_ne by auto with keys. apply Hi.
  - intros i e.
    destruct (decide (MSISDNIndexKey (MSISDN s) = MSISDNIndexKey i)) as [Heq|Hne].
    + rewrite Heq, lookup_insert_eq. intros [= <-]. simpl. eauto.
    + rewrite !lookup_insert_ne by auto with keys. apply Hm.
Qed.

Lemma bounded_created now s db :
  bounded (horizon cfg) now db →
  bounded (horizon cfg) now (created cfg now s db).
Proof.
  intros Hb k e. unfold created, index_add.
  pose proof (DefaultTTL_horizon cfg). pose proof (whole_seconds_horizon cfg).
  rewrite !lookup_insert. repeat case_decide; try (intros [= <-]; simpl; eauto with lia).
  apply Hb.
Qed.

Lemma Inv_created now s db :
  Inv (horizon cfg) now db →
  Inv (horizon cfg) now (created cfg now s db).
Proof.
  intros (Hty & Hb).
  split; [by apply well_typed_created|by apply bounded_created].
Qed.

Lemma Create_Inv now s db r db' :
  Inv (horizon cfg) now db →
  repository.Create cfg now s db = Ret r db' →
  Inv (horizon cfg) now db'.
Proof.
  intros HI.
  destruct (repository.validateSession (Some s)) as [err|] eqn:Hv.
  - unfold repository.Create. rewrite Hv. by intros [= <- <-].
  - rewrite (Create_well_typed cfg Hcfg) by (done || apply HI).
    intros [= <- <-]. by apply Inv_created.
Qed.

Lemma run_op_Inv fuel now o db db' :
  Inv (horizon cfg) now db →
  run_op cfg fuel now o db = Some db' →
  Inv (horizon cfg) now db'.
Proof.
  intros HI. destruct o; simpl.
  - destruct (repository.Create _ _ _ _) eqn:Hrun; [done|]. intros [= <-].
    by eapply Create_Inv.
  - destruct (repository.Get _ _ _ _ _) eqn:Hrun; [done|]. intros [= <-].
    by apply Get_Ret in Hrun as [-> _].
  - destruct (repository.Update _ _ _ _ _) eqn:Hrun; [done|]. intros [= <-].
    by apply Update_Ret in Hrun as [-> _].
  - destruct (repository.Delete _ _ _ _ _) eqn:Hrun; [done|]. intros [= <-].
    by apply Delete_Ret in Hrun as [-> _].
  - destruct (repository.RenewTTL _ _ _ _ _) eqn:Hrun; [done|]. intros [= <-].
    by apply RenewTTL_Ret in Hrun as [-> _].
  - destruct (repository.QueryByIMSI _ _ _ _ _) eqn:Hrun; [done|]. intros [= <-].
    by apply QueryByIMSI_Ret in Hrun as ->.
  - destruct (repository.QueryByMSISDN _ _ _ _ _) eqn:Hrun; [done|]. intros [= <-].
    by apply QueryByMSISDN_Ret in Hrun as ->.
  - unfold service.CreateSession.
    destruct (service.validateSessionForCreation _); [by intros [= <-]|].
    simpl.
    destruct (repository.Get _ _ _ _ _) as [|r0 db0] eqn:Hrun; [done|].
    apply Get_Ret in Hrun as [-> [e ->]].
    destruct (repository.Create _ _ _ _) eqn:HC; [done|]. intros [= <-].
    by eapply Create_Inv.
  - unfold service.GetSession. case_decide; [by intros [= <-]|]. simpl.
    destruct (repository.Get _ _ _ _ _) as [|r0 db0] eqn:Hrun; [done|].
    apply Get_Ret in Hrun as [-> [e ->]]. by intros [= <-].
  - unfold service.UpdateSession.
    destruct (service.validateSessionForUpdate _); [by intros [= <-]|].
    simpl.
    destruct (repository.Get _ _ _ _ _) as [|r0 db0] eqn:Hrun; [done|].
    apply Get_Ret in Hrun as [-> [e ->]]. by intros [= <-].
  - unfold service.DeleteSession. case_decide; [by intros [= <-]|]. simpl.
    destruct (repository.Get _ _ _ _ _) as [|r0 db0] eqn:Hrun; [done|].
    apply Get_Ret in Hrun as [-> [e ->]]. by intros [= <-].
  - unfold service.RenewSession. case_decide; [by intros [= <-]|]. simpl.
    destruct (repository.Get _ _ _ _ _) as [|r0 db0] eqn:Hrun; [done|].
    apply Get_Ret in Hrun as [-> [e ->]]. by intros [= <-].
Qed.

Lemma reachable_Inv now db :
  reachable cfg now db → Inv (horizon cfg) now db.
Proof.
  induction 1 as [now|now now' fuel o db db' _ IH Hle Hrun].
  - apply Inv_empty.
  - eapply run_op_Inv; [|done]. by eapply Inv_mono.
Qed.

End InvariantCreate.

(** ** Scripts reach reachable key spaces *)

Lemma run_script_reachable cfg fuel script start db now db' :
  reachable cfg start db →
  run_script cfg fuel start script db = Some (now, db') →
  reachable cfg now db'.
Proof.
  revert start db. induction script as [|[t o] script IH]; intros start db Hr; simpl.
  - by intros [= <- <-].
  - destruct (start <=? t) eqn:Hle; [|done]. apply Z.leb_le in Hle.
    destruct (run_op cfg fuel t o db) as [db1|] eqn:Hrun; [|done].
    apply IH. by eapply reach_step.
Qed.

(** ** Resolving the members of an index *)

Section Query.
Variable cfg : config.SessionConfig.

Lemma cleanupExpiredIndex_missing fuel now tmsi db :
  live_record now db tmsi = None →
  repository.cleanupExpiredIndex cfg (S fuel) now tmsi db = Some db.
Proof.
  intros Hlive. unfold repository.cleanupExpiredIndex.
  rewrite Get_S. case_decide; [done|].
  unfold live_record in Hlive. simpl.
  by destruct (redis.peek now db (SessionKey tmsi)) as [[[d|m] ex]|].
Qed.

Lemma exec_GET_typed now db tmsi :
  typed db →
  redis.exec now (redis.GET (SessionKey tmsi)) db = (GET_reply now db tmsi, db).
Proof.
  intros (Hs & _). unfold GET_reply, live_record. simpl.
  destruct (redis.peek now db (SessionKey tmsi)) as [[[d|m] ex]|] eqn:Hp; [done| |done].
  apply peek_Some in Hp as [Hl _]. apply Hs in Hl as (s & Hv). done.
Qed.

Lemma run_GETs_typed now db l :
  typed db →
  redis.run now (map (λ tmsi, redis.GET (SessionKey tmsi)) l) db =
  (map (GET_reply now db) l, db).
Proof.
  intros Hty. induction l as [|t l IH]; [done|].
  cbn [map redis.run]. rewrite exec_GET_typed, IH by done. done.
Qed.

Lemma first_error_GET_replies now db l :
  redis.first_error (map (GET_reply now db) l) = None ∨
  redis.first_error (map (GET_reply now db) l) = Some redis_Nil.
Proof.
  induction l as [|t l IH]; [by left|].
  simpl. unfold GET_reply at 1 3. destruct (live_record now db t); simpl; auto.
Qed.

Lemma collect_GET_replies fuel now db l sessions :
  repository.collect cfg (S fuel) now (zip l (map (GET_reply now db) l)) sessions db
  = Ret (inr (sessions ++ omap (live_record now db) l)%list) db.
Proof.
  revert sessions. induction l as [|t l IH]; intros sessions.
  - simpl. by rewrite app_nil_r.
  - cbn [map zip zip_with omap list_omap repository.collect].
    unfold GET_reply at 1.
    destruct (live_record now db t) as [d|] eqn:Hlive.
    + rewrite IH. by rewrite <- app_assoc.
    + rewrite cleanupExpiredIndex_missing by done. apply IH.
Qed.

Lemma QueryByMultiple_typed fuel now db l :
  typed db →
  repository.QueryByMultiple cfg (S fuel) now l db
  = Ret (inr (omap (live_record now db) l)) db.
Proof.
  intros Hty. unfold repository.QueryByMultiple, redis.Pipeline_Exec.
  destruct l as [|t l]; [done|].
  rewrite run_GETs_typed by done.
  destruct (first_error_GET_replies now db (t :: l)) as [->| ->];
    apply (collect_GET_replies fuel now db (t :: l) []).
Qed.

Lemma QueryByIMSI_typed fuel now db imsi :
  typed db →
  imsi ≠ "" →
  repository.QueryByIMSI cfg (S fuel) now imsi db
  = Ret (inr (omap (live_record now db)
                   (elements (index_members now db (IMSIIndexKey imsi))))) db.
Proof.
  intros Hty Hne. unfold repository.QueryByIMSI. rewrite decide_False by done.
  unfold index_members. simpl.
  destruct (redis.peek now db (IMSIIndexKey imsi)) as [[[d|m] ex]|] eqn:Hp.
  - apply peek_Some in Hp as [Hl _]. destruct Hty as (_ & Hi & _).
    apply Hi in Hl as [m Hm]. done.
  - destruct (elements m) as [|t l] eqn:Hel; [done|].
    by apply QueryByMultiple_typed.
  - by rewrite elements_empty.
Qed.

Lemma QueryByMSISDN_typed fuel now db msisdn :
  typed db →
  msisdn ≠ "" →
  repository.QueryByMSISDN cfg (S fuel) now msisdn db
  = Ret (inr (omap (live_record now db)
                   (elements (index_members now db (MSISDNIndexKey msisdn))))) db.
Proof.
  intros Hty Hne. unfold repository.QueryByMSISDN. rewrite decide_False by done.
  unfold index_members. simpl.
  destruct (redis.peek now db (MSISDNIndexKey msisdn)) as [[[d|m] ex]|] eqn:Hp.
  - apply peek_Some in Hp as [Hl _]. destruct Hty as (_ & _ & Hi).
    apply Hi in Hl as [m Hm]. done.
  - destruct (elements m) as [|t l] eqn:Hel; [done|].
    by apply QueryByMultiple_typed.
  - by rewrite elements_empty.
Qed.

Lemma QueryByMultiple_well_typed fuel now db l :
  well_typed db →
  repository.QueryByMultiple cfg (S fuel) now l db
  = Ret (inr (omap (live_record now db) l)) db.
Proof. intros ?%well_typed_typed. by apply QueryByMultiple_typed. Qed.

Lemma QueryByIMSI_well_typed fuel now db imsi :
  well_typed db →
  imsi ≠ "" →
  repository.QueryByIMSI cfg (S fuel) now imsi db
  = Ret (inr (omap (live_record now db)
                   (elements (index_members now db (IMSIIndexKey imsi))))) db.
Proof. intros ?%well_typed_typed. by apply QueryByIMSI_typed. Qed.

Lemma QueryByMSISDN_well_typed fuel now db msisdn :
  well_typed db →
  msisdn ≠ "" →
  repository.QueryByMSISDN cfg (S fuel) now msisdn db
  = Ret (inr (omap (live_record now db)
                   (elements (index_members now db (MSISDNIndexKey msisdn))))) db.
Proof. intros ?%well_typed_typed. by apply QueryByMSISDN_typed. Qed.

End Query.

(** ** Operations on a visible record *)

Section OnLiveRecord.
Variable cfg : config.SessionConfig.

Lemma live_record_created now n s db :
  now ≤ n < now + config.DefaultTTL cfg →
  live_record n (created cfg now s db) (TMSI s) = Some (stamped now s).
Proof.
  intros [_ Hlt%Z.ltb_lt]. unfold created.
  rewrite !live_record_index_add by auto with keys.
  unfold live_record. rewrite peek_insert_eq. unfold redis.live. simpl.
  by rewrite Hlt.
Qed.

Lemma same_but_timestamps_stamped now s : same_but_timestamps s (stamped now s).
Proof. unfold same_but_timestamps, stamped. by destruct (IsZero _). Qed.

Lemma Update_live fuel now session db s :
  repository.validateSession (Some session) = None →
  live_record now db (TMSI session) = Some s →
  repository.Update cfg fuel now session db = OutOfFuel.
Proof.
  intros Hv Hlive. unfold repository.Update. rewrite Hv.
  assert (TMSI session ≠ "") as Hne.
  { unfold repository.validateSession in Hv. by case_decide. }
  by destruct (Get_RenewTTL_live cfg fuel now _ db s Hne Hlive) as [-> _].
Qed.

Lemma Delete_live fuel now tmsi db s :
  tmsi ≠ "" →
  live_record now db tmsi = Some s →
  repository.Delete cfg fuel now tmsi db = OutOfFuel ∧
  service.DeleteSession (repo := redis_repository cfg) fuel now tmsi db = OutOfFuel.
Proof.
  intros Hne Hlive.
  destruct (Get_RenewTTL_live cfg fuel now _ db s Hne Hlive) as [HG _].
  unfold repository.Delete, service.DeleteSession.
  cbn [service.repo_Get redis_repository].
  rewrite !decide_False by done. by rewrite HG.
Qed.

Lemma RenewSession_live fuel now tmsi db s :
  tmsi ≠ "" →
  live_record now db tmsi = Some s →
  service.RenewSession (repo := redis_repository cfg) fuel now tmsi db = OutOfFuel.
Proof.
  intros Hne Hlive.
  destruct (Get_RenewTTL_live cfg fuel now _ db s Hne Hlive) as [HG _].
  unfold service.RenewSession. cbn [service.repo_Get redis_repository].
  rewrite decide_False by done. by rewrite HG.
Qed.

Lemma CreateSession_live fuel now session db s :
  service.validateSessionForCreation (Some session) = None →
  live_record now db (TMSI session) = Some s →
  service.CreateSession (repo := redis_repository cfg) fuel now session db = OutOfFuel.
Proof.
  intros Hv Hlive. unfold service.CreateSession. rewrite Hv.
  assert (TMSI session ≠ "") as Hne.
  { unfold service.validateSessionForCreation in Hv. by case_decide. }
  simpl. by destruct (Get_RenewTTL_live cfg fuel now _ db s Hne Hlive) as [-> _].
Qed.

Lemma UpdateSession_live fuel now session db s :
  service.validateSessionForUpdate (Some session) = None →
  live_record now db (TMSI session) = Some s →
  service.UpdateSession (repo := redis_repository cfg) fuel now session db = OutOfFuel.
Proof.
  intros Hv Hlive. unfold service.UpdateSession. rewrite Hv.
  assert (TMSI session ≠ "") as Hne.
  { unfold service.validateSessionForUpdate in Hv. by case_decide. }
  simpl. by destruct (Get_RenewTTL_live cfg fuel now _ db s Hne Hlive) as [-> _].
Qed.

End OnLiveRecord.

(** ** The key space that [Create] leaves *)

Section CreatedFacts.
Variable cfg : config.SessionConfig.

Lemma peek_created_own now n s db :
  redis.peek n (created cfg now s db) (SessionKey (TMSI s)) =
  if n <? now + config.DefaultTTL cfg
  then Some (redis.Entry (redis.VString (stamped now s))
                         (Some (now + config.DefaultTTL cfg)))
  else None.
Proof.
  unfold created, index_add. rewrite !peek_insert_ne by auto with keys.
  rewrite peek_insert_eq. unfold redis.live. simpl. done.
Qed.

Lemma live_record_created_other now n s db t :
  t ≠ TMSI s →
  live_record n (created cfg now s db) t = live_record n db t.
Proof.
  intros Hne. unfold created. rewrite !live_record_index_add by auto with keys.
  apply live_record_insert_ne. by intros ?%SessionKey_inj.
Qed.

Lemma live_record_created_own now n s db :
  live_record n (created cfg now s db) (TMSI s) =
  if n <? now + config.DefaultTTL cfg then Some (stamped now s) else None.
Proof.
  unfold live_record. rewrite peek_created_own.
  by destruct (n <? now + config.DefaultTTL cfg).
Qed.

Lemma index_members_created_imsi now n s db i :
  index_members n (created cfg now s db) (IMSIIndexKey i) =
  if decide (i = IMSI s)
  then if n <? now + redis.whole_seconds (config.DefaultTTL cfg)
       then {[ TMSI s ]} ∪ index_members now db (IMSIIndexKey i)
       else ∅
  else index_members n db (IMSIIndexKey i).
Proof.
  unfold created.
  rewrite index_members_index_add_ne by auto with keys.
  case_decide as Hi.
  - subst i. rewrite index_members_index_add.
    by rewrite index_members_insert_ne by auto with keys.
  - rewrite index_members_index_add_ne by (by intros ?%IMSIIndexKey_inj).
    by rewrite index_members_insert_ne by auto with keys.
Qed.

Lemma index_members_created_msisdn now n s db m :
  index_members n (created cfg now s db) (MSISDNIndexKey m) =
  if decide (m = MSISDN s)
  then if n <? now + redis.whole_seconds (config.DefaultTTL cfg)
       then {[ TMSI s ]} ∪ index_members now db (MSISDNIndexKey m)
       else ∅
  else index_members n db (MSISDNIndexKey m).
Proof.
  unfold created.
  case_decide as Hm.
  - subst m. rewrite index_members_index_add.
    rewrite index_members_index_add_ne by auto with keys.
    by rewrite index_members_insert_ne by auto with keys.
  - rewrite index_members_index_add_ne by (by intros ?%MSISDNIndexKey_inj).
    rewrite index_members_index_add_ne by auto with keys.
    by rewrite index_members_insert_ne by auto with keys.
Qed.

Lemma stamped_identity now s :
  TMSI (stamped now s) = TMSI s ∧ IMSI (stamped now s) = IMSI s ∧
  MSISDN (stamped now s) = MSISDN s.
Proof. unfold stamped. by destruct (IsZero _). Qed.

End CreatedFacts.

Lemma validateSession_fields s :
  repository.validateSession (Some s) = None →
  TMSI s ≠ "" ∧ IMSI s ≠ "" ∧ MSISDN s ≠ "".
Proof. unfold repository.validateSession. by repeat case_decide. Qed.

(** ** Validation *)

(** On a record with an empty TMSI, IMSI or MSISDN the three validators
    agree, and the error is the [ValidationError] of the first empty field. *)
Lemma validators_on_empty_field s :
  TMSI s = "" ∨ IMSI s = "" ∨ MSISDN s = "" →
  ∃ field message,
    repository.validateSession (Some s) = Some (ValidationError field message) ∧
    service.validateSessionForCreation (Some s) = Some (ValidationError field message) ∧
    service.validateSessionForUpdate (Some s) = Some (ValidationError field message) ∧
    (field = "tmsi" ∧ TMSI s = "" ∨
     field = "imsi" ∧ TMSI s ≠ "" ∧ IMSI s = "" ∨
     field = "msisdn" ∧ TMSI s ≠ "" ∧ IMSI s ≠ "" ∧ MSISDN s = "").
Proof.
  intros H.
  unfold repository.validateSession, service.validateSessionForCreation,
    service.validateSessionForUpdate.
  repeat case_decide; try (do 2 eexists; repeat split; eauto 10; fail).
  by destruct H as [?|[?|?]].
Qed.

(** The update validator is the repository validator: no length is checked. *)
Lemma validateSessionForUpdate_is_validateSession session :
  service.validateSessionForUpdate session = repository.validateSession session.
Proof. by destruct session. Qed.

(** A record that passes the creation validator passes the other two. *)
Lemma validateSessionForCreation_None s :
  service.validateSessionForCreation (Some s) = None →
  repository.validateSession (Some s) = None ∧
  service.validateSessionForUpdate (Some s) = None.
Proof.
  unfold service.validateSessionForCreation, repository.validateSession,
    service.validateSessionForUpdate.
  by repeat case_decide.
Qed.

(** With the three fields non-empty and one of them below its minimum
    length, the creation validator returns a plain error and the update
    validator accepts the record. *)
Lemma validators_on_short_field s :
  TMSI s ≠ "" → IMSI s ≠ "" → MSISDN s ≠ "" →
  (String.length (TMSI s) < 4)%nat ∨ (String.length (IMSI s) < 14)%nat ∨
    (String.length (MSISDN s) < 10)%nat →
  (∃ msg, service.validateSessionForCreation (Some s) = Some (Errorf msg)) ∧
  service.validateSessionForUpdate (Some s) = None.
Proof.
  intros Ht Hi Hm Hshort.
  unfold service.validateSessionForCreation, service.validateSessionForUpdate.
  rewrite !decide_False by done. split; [|done].
  destruct (Z.of_nat (String.length (TMSI s)) <? 4) eqn:H1; [eauto|].
  destruct (Z.of_nat (String.length (IMSI s)) <? 14) eqn:H2; [eauto|].
  destruct (Z.of_nat (String.length (MSISDN s)) <? 10) eqn:H3; [eauto|].
  apply Z.ltb_ge in H1, H2, H3. lia.
Qed.

(** ** The claims *)

(** C1 (the code departs from it).  Claim: for a valid record, [Create]
    followed by [Get] of its TMSI returns the record, up to the two
    timestamps.  In the code, [Create] of a valid record on a reachable key
    space succeeds and stores a record equal to the input up to the two
    timestamps, visible for one default TTL; but at every instant at which
    it is visible, [Get] of its TMSI does not return, whatever the
    recursion budget. *)
Theorem Create_then_Get_never_returns cfg now0 db now n s fuel :
  config.validateConfig cfg = None →
  reachable cfg now0 db →
  repository.validateSession (Some s) = None →
  now ≤ n < now + config.DefaultTTL cfg →
  ∃ s' db',
    repository.Create cfg now s db = Ret (inr s') db' ∧
    same_but_timestamps s s' ∧
    live_record n db' (TMSI s) = Some s' ∧
    repository.Get cfg fuel n (TMSI s) db' = OutOfFuel.
Proof.
  intros Hcfg Hreach Hv Hn.
  destruct (reachable_Inv cfg Hcfg now0 db Hreach) as (Hty & _).
  exists (stamped now s), (created cfg now s db).
  pose proof (live_record_created cfg now n s db Hn) as Hlive.
  split; [by apply Create_well_typed|].
  split; [apply same_but_timestamps_stamped|].
  split; [done|].
  assert (TMSI s ≠ "") as Hne.
  { unfold repository.validateSession in Hv. by case_decide. }
  by destruct (Get_RenewTTL_live cfg fuel n (TMSI s) _ _ Hne Hlive).
Qed.

Lemma Create_then_Get_never_returns_witness :
  ∃ s' db',
    repository.Create test_cfg 1000 test_session ∅ = Ret (inr s') db' ∧
    same_but_timestamps test_session s' ∧
    live_record 1001 db' (TMSI test_session) = Some s' ∧
    repository.Get test_cfg 1000 1001 (TMSI test_session) db' = OutOfFuel.
Proof.
  apply (Create_then_Get_never_returns test_cfg 0 ∅ 1000 1001 test_session 1000).
  - reflexivity.
  - apply reach_empty.
  - reflexivity.
  - simpl; lia.
Defined.

(** C2 (the code departs from it).  Claim: in every key space that the
    operations reach, the TMSI of a live record is a member of the index
    set of the record's IMSI and of the index set of its MSISDN.  In the
    code, [Create] gives the record its expiry with SET, in milliseconds,
    and the two index sets theirs with EXPIRE, which the client sends in
    whole seconds: with a default TTL that is not a whole number of seconds
    the index sets expire before the record.  From then on, and until the
    record expires, the record is visible, its TMSI is in neither index
    set, and neither query returns it. *)
Theorem live_record_outlives_index cfg now db n s fuel :
  config.validateConfig cfg = None →
  typed db →
  repository.validateSession (Some s) = None →
  now + redis.whole_seconds (config.DefaultTTL cfg) ≤ n < now + config.DefaultTTL cfg →
  ∃ s' db',
    repository.Create cfg now s db = Ret (inr s') db' ∧
    live_record n db' (TMSI s) = Some s' ∧
    IMSI s' = IMSI s ∧ MSISDN s' = MSISDN s ∧
    (TMSI s ∉ index_members n db' (IMSIIndexKey (IMSI s))) ∧
    (TMSI s ∉ index_members n db' (MSISDNIndexKey (MSISDN s))) ∧
    repository.QueryByIMSI cfg (S fuel) n (IMSI s) db' = Ret (inr []) db' ∧
    repository.QueryByMSISDN cfg (S fuel) n (MSISDN s) db' = Ret (inr []) db'.
Proof.
  intros Hcfg Hty Hv [Hidx Hrec].
  destruct (validateSession_fields s Hv) as (_ & Hi & Hm).
  destruct (stamped_identity now s) as (_ & HI & HM).
  exists (stamped now s), (created cfg now s db).
  split; [by apply Create_typed|].
  split; [rewrite live_record_created_own; by apply Z.ltb_lt in Hrec as ->|].
  split; [done|]. split; [done|].
  assert (index_members n (created cfg now s db) (IMSIIndexKey (IMSI s)) = ∅) as HeI.
  { rewrite index_members_created_imsi, decide_True by done.
    by assert ((n <? now + redis.whole_seconds (config.DefaultTTL cfg)) = false) as ->
      by (apply Z.ltb_ge; lia). }
  assert (index_members n (created cfg now s db) (MSISDNIndexKey (MSISDN s)) = ∅) as HeM.
  { rewrite index_members_created_msisdn, decide_True by done.
    by assert ((n <? now + redis.whole_seconds (config.DefaultTTL cfg)) = false) as ->
      by (apply Z.ltb_ge; lia). }
  pose proof (typed_created cfg now s db Hty) as Hty'.
  rewrite HeI, HeM. split; [apply not_elem_of_empty|]. split; [apply not_elem_of_empty|].
  split.
  - rewrite QueryByIMSI_typed by done. by rewrite HeI, elements_empty.
  - rewrite QueryByMSISDN_typed by done. by rewrite HeM, elements_empty.
Qed.

Lemma live_record_outlives_index_witness :
  ∃ s' db',
    repository.Create odd_cfg 0 test_session ∅ = Ret (inr s') db' ∧
    live_record 1200 db' (TMSI test_session) = Some s' ∧
    IMSI s' = IMSI test_session ∧ MSISDN s' = MSISDN test_session ∧
    (TMSI test_session ∉ index_members 1200 db' (IMSIIndexKey (IMSI test_session))) ∧
    (TMSI test_session ∉ index_members 1200 db' (MSISDNIndexKey (MSISDN test_session))) ∧
    repository.QueryByIMSI odd_cfg 1 1200 (IMSI test_session) db' = Ret (inr []) db' ∧
    repository.QueryByMSISDN odd_cfg 1 1200 (MSISDN test_session) db' = Ret (inr []) db'.
Proof.
  apply (live_record_outlives_index odd_cfg 0 ∅ 1200 test_session 0).
  - reflexivity.
  - apply typed_empty.
  - reflexivity.
  - vm_compute. split; [discriminate|reflexivity].
Defined.

(** C3 (the code departs from it).  Claim: [Get] of a TMSI with a live
    record terminates and returns the record, renewing the TTLs on the way.
    In the code, [Get] calls [RenewTTL], which calls [Get] again before it
    renews anything: for a non-empty TMSI with a visible record neither
    [Get] nor [RenewTTL] nor the service's [GetSession] returns, whatever
    the recursion budget. *)
Theorem Get_never_returns_on_live_record cfg fuel now tmsi db s :
  tmsi ≠ "" →
  live_record now db tmsi = Some s →
  repository.Get cfg fuel now tmsi db = OutOfFuel ∧
  repository.RenewTTL cfg fuel now tmsi db = OutOfFuel ∧
  service.GetSession (repo := redis_repository cfg) fuel now tmsi db = OutOfFuel.
Proof.
  intros Hne Hlive.
  destruct (Get_RenewTTL_live cfg fuel now tmsi db s Hne Hlive) as [HG HR].
  split; [done|]. split; [done|].
  unfold service.GetSession. rewrite decide_False by done.
  cbn [service.repo_Get redis_repository]. by rewrite HG.
Qed.

Lemma Get_never_returns_witness :
  repository.Get test_cfg 1000 1001 "12345678" test_db = OutOfFuel ∧
  repository.RenewTTL test_cfg 1000 1001 "12345678" test_db = OutOfFuel ∧
  service.GetSession (repo := redis_repository test_cfg) 1000 1001 "12345678" test_db
    = OutOfFuel.
Proof.
  apply (Get_never_returns_on_live_record test_cfg 1000 1001 "12345678" test_db
           (stamped 1000 test_session)).
  - discriminate.
  - vm_compute; reflexivity.
Defined.

(** C4 (the code departs from it).  Claim: a second [Create] for a TMSI
    with a live record fails with AlreadyExists.  In the code, the
    repository's [Create] has no existence check: for a valid record whose
    TMSI has a visible record in a reachable key space it succeeds and
    writes the record and both index entries again; and the service's
    [CreateSession], which asks [Get] first, does not return. *)
Theorem duplicate_Create_succeeds cfg now0 db now s existing fuel :
  config.validateConfig cfg = None →
  reachable cfg now0 db →
  service.validateSessionForCreation (Some s) = None →
  live_record now db (TMSI s) = Some existing →
  repository.Create cfg now s db = Ret (inr (stamped now s)) (created cfg now s db) ∧
  service.CreateSession (repo := redis_repository cfg) fuel now s db = OutOfFuel.
Proof.
  intros Hcfg Hreach Hv Hlive.
  destruct (reachable_Inv cfg Hcfg now0 db Hreach) as (Hty & _).
  destruct (validateSessionForCreation_None s Hv) as [Hv' _].
  split; [by apply Create_well_typed|].
  by eapply CreateSession_live.
Qed.

Lemma duplicate_Create_succeeds_witness :
  repository.Create test_cfg 1001 test_session test_db
    = Ret (inr (stamped 1001 test_session)) (created test_cfg 1001 test_session test_db) ∧
  service.CreateSession (repo := redis_repository test_cfg) 1000 1001 test_session test_db
    = OutOfFuel.
Proof.
  apply (duplicate_Create_succeeds test_cfg 1000 test_db 1001 test_session
           (stamped 1000 test_session) 1000).
  - reflexivity.
  - apply (run_script_reachable test_cfg 1 [(1000, OpCreate test_session)] 1000 ∅
             1000 test_db (reach_empty _ _)).
    vm_compute; reflexivity.
  - reflexivity.
  - vm_compute; reflexivity.
Defined.

(** C5 (the code departs from it).  Claim: a record whose TMSI, IMSI or
    MSISDN is empty or below the minimum length makes [Create] fail with a
    [ValidationError] naming the field, and [Update] fails by the same
    rules.  In the code, a three-character TMSI makes the creation
    validator return a plain error, not a [ValidationError], and passes the
    update validator: [CreateSession] fails with the plain error and
    [UpdateSession] goes on to look the record up. *)
Theorem short_TMSI_validation :
  service.validateSessionForCreation (Some short_session)
    = Some (Errorf "TMSI must be at least 4 characters long") ∧
  is_ValidationError (Errorf "TMSI must be at least 4 characters long") = false ∧
  service.validateSessionForUpdate (Some short_session) = None ∧
  service.CreateSession (repo := redis_repository test_cfg) 1 1000 short_session ∅
    = Ret (inl (Errorf "TMSI must be at least 4 characters long")) ∅ ∧
  service.UpdateSession (repo := redis_repository test_cfg) 1 1000 short_session ∅
    = Ret (inl ErrSessionNotFound) ∅.
Proof. repeat split; vm_compute; reflexivity. Qed.

(** C6, as the claim states it, fails: one millisecond later the index set
    of the first IMSI still lists the TMSI that was created anew under
    another IMSI, and [QueryByIMSI] for the first IMSI returns that record
    too. *)
Lemma QueryByIMSI_returns_foreign_record :
  run_script test_cfg 1 0 stale_script ∅ = Some (1800001, stale_db) ∧
  returned_identities
    (repository.QueryByIMSI test_cfg 1 1800002 "123456789012345" stale_db)
  = [ ("12345678", "999999999999999"); ("87654321", "123456789012345") ] ∧
  "999999999999999" ≠ "123456789012345".
Proof. split; [|split]; [vm_compute; reflexivity..|discriminate]. Qed.

(** C6, amended.  On a key space whose session keys hold records and whose
    index keys hold sets, and for a non-empty IMSI, [QueryByIMSI] returns
    without error and without changing the key space; the result consists
    of the records of exactly those members of the IMSI's index set whose
    record is visible (members without a record are skipped, so no member
    with a record gives the empty sequence).  The IMSI of a record is not
    looked at. *)
Theorem QueryByIMSI_resolves_index cfg fuel db n imsi :
  typed db →
  imsi ≠ "" →
  ∃ sessions,
    repository.QueryByIMSI cfg (S fuel) n imsi db = Ret (inr sessions) db ∧
    sessions = omap (live_record n db)
                    (elements (index_members n db (IMSIIndexKey imsi))) ∧
    (∀ s, s ∈ sessions ↔
          ∃ t, t ∈ index_members n db (IMSIIndexKey imsi) ∧
               live_record n db t = Some s) ∧
    ((∀ t, t ∈ index_members n db (IMSIIndexKey imsi) → live_record n db t = None) →
     sessions = []).
Proof.
  intros Hty Hne.
  eexists. split; [by apply QueryByIMSI_typed|]. split; [done|].
  assert (∀ s, s ∈ omap (live_record n db)
                        (elements (index_members n db (IMSIIndexKey imsi))) ↔
               ∃ t, t ∈ index_members n db (IMSIIndexKey imsi) ∧
                    live_record n db t = Some s) as Hmem.
  { intros s. rewrite list_elem_of_omap. by setoid_rewrite elem_of_elements. }
  split; [done|].
  intros Hnone.
  destruct (omap _ _) as [|s l] eqn:Hl; [done|].
  assert (s ∈ s :: l) as Hs by apply list_elem_of_here.
  apply Hmem in Hs as (t & Ht & Hlive). rewrite Hnone in Hlive; done.
Qed.

Lemma QueryByIMSI_resolves_index_witness :
  ∃ sessions,
    repository.QueryByIMSI test_cfg 1 1800002 "123456789012345" stale_db
      = Ret (inr sessions) stale_db ∧
    sessions = omap (live_record 1800002 stale_db)
                    (elements (index_members 1800002 stale_db
                                 (IMSIIndexKey "123456789012345"))) ∧
    (∀ s, s ∈ sessions ↔
          ∃ t, t ∈ index_members 1800002 stale_db (IMSIIndexKey "123456789012345") ∧
               live_record 1800002 stale_db t = Some s) ∧
    ((∀ t, t ∈ index_members 1800002 stale_db (IMSIIndexKey "123456789012345") →
           live_record 1800002 stale_db t = None) →
     sessions = []).
Proof.
  apply (QueryByIMSI_resolves_index test_cfg 0 stale_db 1800002 "123456789012345").
  - apply well_typed_typed.
    apply (reachable_Inv test_cfg eq_refl 1800001 stale_db).
    apply (run_script_reachable test_cfg 1 stale_script 0 ∅ 1800001 stale_db
             (reach_empty _ _)).
    vm_compute; reflexivity.
  - discriminate.
Defined.

(** C7 (the code departs from it).  Claim: [Delete] fails with NotFound
    when no live record exists, and a successful [Delete] removes the
    record and the TMSI from both index sets.  In the code, [Delete] asks
    [Get] for the record first, and [Get] does not return on a visible
    record: after [Create] of a valid record, at every instant at which the
    record is visible, neither [Delete] nor the service's [DeleteSession]
    of its TMSI returns, whatever the recursion budget; the record stays
    readable and its TMSI stays in both index sets for as long as these
    are visible.  Only once the record has expired does [Delete] return,
    with [ErrSessionNotFound]. *)
Theorem Create_then_Delete_never_returns cfg now db n s fuel :
  config.validateConfig cfg = None →
  typed db →
  repository.validateSession (Some s) = None →
  now ≤ n →
  ∃ s' db',
    repository.Create cfg now s db = Ret (inr s') db' ∧
    (n < now + config.DefaultTTL cfg →
       live_record n db' (TMSI s) = Some s' ∧
       repository.Delete cfg fuel n (TMSI s) db' = OutOfFuel ∧
       service.DeleteSession (repo := redis_repository cfg) fuel n (TMSI s) db'
         = OutOfFuel) ∧
    (n < now + redis.whole_seconds (config.DefaultTTL cfg) →
       TMSI s ∈ index_members n db' (IMSIIndexKey (IMSI s)) ∧
       TMSI s ∈ index_members n db' (MSISDNIndexKey (MSISDN s))) ∧
    (now + config.DefaultTTL cfg ≤ n →
       repository.Delete cfg (S fuel) n (TMSI s) db'
         = Ret (inl ErrSessionNotFound) db').
Proof.
  intros Hcfg Hty Hv Hn.
  destruct (validateSession_fields s Hv) as (Ht & _).
  exists (stamped now s), (created cfg now s db).
  split; [by apply Create_typed|]. split; [|split].
  - intros Hlt.
    assert (live_record n (created cfg now s db) (TMSI s) = Some (stamped now s))
      as Hlive by (by apply live_record_created).
    split; [done|]. by eapply Delete_live.
  - intros Hlt%Z.ltb_lt.
    rewrite index_members_created_imsi, index_members_created_msisdn.
    rewrite !decide_True, Hlt by done.
    split; by apply elem_of_union_l, elem_of_singleton.
  - intros Hge. unfold repository.Delete. rewrite decide_False by done.
    rewrite Get_missing; [done..|].
    rewrite peek_created_own.
    by assert ((n <? now + config.DefaultTTL cfg) = false) as ->
      by (apply Z.ltb_ge; lia).
Qed.

Lemma Create_then_Delete_never_returns_witness :
  ∃ s' db',
    repository.Create test_cfg 1000 test_session ∅ = Ret (inr s') db' ∧
    (1001 < 1000 + config.DefaultTTL test_cfg →
       live_record 1001 db' (TMSI test_session) = Some s' ∧
       repository.Delete test_cfg 1000 1001 (TMSI test_session) db' = OutOfFuel ∧
       service.DeleteSession (repo := redis_repository test_cfg) 1000 1001
         (TMSI test_session) db' = OutOfFuel) ∧
    (1001 < 1000 + redis.whole_seconds (config.DefaultTTL test_cfg) →
       TMSI test_session ∈ index_members 1001 db' (IMSIIndexKey (IMSI test_session)) ∧
       TMSI test_session ∈ index_members 1001 db' (MSISDNIndexKey (MSISDN test_session))) ∧
    (1000 + config.DefaultTTL test_cfg ≤ 1001 →
       repository.Delete test_cfg (S 1000) 1001 (TMSI test_session) db'
         = Ret (inl ErrSessionNotFound) db').
Proof.
  apply (Create_then_Delete_never_returns test_cfg 1000 ∅ 1001 test_session 1000).
  - reflexivity.
  - apply typed_empty.
  - reflexivity.
  - lia.
Defined.

(** C8 (the code departs from it).  Claim: a successful [Update] that
    changes the IMSI moves the TMSI from the old index set to the new one.
    In the code, [Update] asks [Get] for the existing record first: with a
    valid record whose TMSI has a visible record, whether or not the IMSI
    changes, neither [Update] nor the service's [UpdateSession] returns,
    whatever the recursion budget, so no index set is ever changed. *)
Theorem Update_never_returns_on_live_record cfg fuel now session db existing :
  repository.validateSession (Some session) = None →
  live_record now db (TMSI session) = Some existing →
  repository.Update cfg fuel now session db = OutOfFuel ∧
  service.UpdateSession (repo := redis_repository cfg) fuel now session db = OutOfFuel.
Proof.
  intros Hv Hlive. split.
  - by eapply Update_live.
  - eapply UpdateSession_live; [|done].
    by rewrite validateSessionForUpdate_is_validateSession.
Qed.

Lemma Update_never_returns_witness :
  repository.Update test_cfg 1000 1001 moved_session test_db = OutOfFuel ∧
  service.UpdateSession (repo := redis_repository test_cfg) 1000 1001 moved_session test_db
    = OutOfFuel.
Proof.
  apply (Update_never_returns_on_live_record test_cfg 1000 1001 moved_session test_db
           (stamped 1000 test_session)).
  - reflexivity.
  - vm_compute; reflexivity.
Defined.

(** The scenario of C8 in figures: the stored record has the first IMSI,
    the update carries another one, and the index sets are as [Create]
    left them. *)
Lemma Update_scenario :
  IMSI moved_session ≠ IMSI test_session ∧
  live_record 1001 test_db "12345678" = Some (stamped 1000 test_session) ∧
  index_members 1001 test_db (IMSIIndexKey (IMSI test_session)) = {[ "12345678" ]} ∧
  index_members 1001 test_db (IMSIIndexKey (IMSI moved_session)) = ∅.
Proof. split; [discriminate|]. repeat split; vm_compute; reflexivity. Qed.

(** C9 (the code departs from it).  Claim: a successful [Update] keeps the
    stored [AttachTime] and sets a new [LastUpdate], and [Update] fails
    with NotFound when no record exists.  In the code, [Update] asks [Get]
    for the existing record first: after [Create] of a valid record, at
    every instant at which the record is visible, neither [Update] nor the
    service's [UpdateSession] returns for any valid record with that TMSI,
    whatever the recursion budget, and the record that is read is still the
    created one, its [LastUpdate] the instant of creation.  Only once the
    record has expired does [Update] return, with [ErrSessionNotFound]. *)
Theorem Create_then_Update_never_returns cfg now db n s session fuel :
  config.validateConfig cfg = None →
  typed db →
  repository.validateSession (Some s) = None →
  repository.validateSession (Some session) = None →
  TMSI session = TMSI s →
  now ≤ n →
  ∃ s' db',
    repository.Create cfg now s db = Ret (inr s') db' ∧
    LastUpdate s' = now ∧
    (n < now + config.DefaultTTL cfg →
       live_record n db' (TMSI s) = Some s' ∧
       repository.Update cfg fuel n session db' = OutOfFuel ∧
       service.UpdateSession (repo := redis_repository cfg) fuel n session db'
         = OutOfFuel) ∧
    (now + config.DefaultTTL cfg ≤ n →
       repository.Update cfg (S fuel) n session db'
         = Ret (inl ErrSessionNotFound) db').
Proof.
  intros Hcfg Hty Hv Hv' HT Hn.
  destruct (validateSession_fields s Hv) as (Ht & _).
  exists (stamped now s), (created cfg now s db).
  split; [by apply Create_typed|]. split; [done|]. split.
  - intros Hlt.
    assert (live_record n (created cfg now s db) (TMSI session) = Some (stamped now s))
      as Hlive by (rewrite HT; by apply live_record_created).
    split; [by rewrite <- HT|]. split; [by eapply Update_live|].
    eapply UpdateSession_live; [|done].
    unfold service.validateSessionForUpdate. exact Hv'.
  - intros Hge. unfold repository.Update. rewrite Hv', HT.
    rewrite Get_missing; [done..|].
    rewrite peek_created_own.
    by assert ((n <? now + config.DefaultTTL cfg) = false) as ->
      by (apply Z.ltb_ge; lia).
Qed.

Lemma Create_then_Update_never_returns_witness :
  ∃ s' db',
    repository.Create test_cfg 1000 test_session ∅ = Ret (inr s') db' ∧
    LastUpdate s' = 1000 ∧
    (1001 < 1000 + config.DefaultTTL test_cfg →
       live_record 1001 db' (TMSI test_session) = Some s' ∧
       repository.Update test_cfg 1000 1001 updated_session db' = OutOfFuel ∧
       service.UpdateSession (repo := redis_repository test_cfg) 1000 1001
         updated_session db' = OutOfFuel) ∧
    (1000 + config.DefaultTTL test_cfg ≤ 1001 →
       repository.Update test_cfg (S 1000) 1001 updated_session db'
         = Ret (inl ErrSessionNotFound) db').
Proof.
  apply (Create_then_Update_never_returns test_cfg 1000 ∅ 1001 test_session
           updated_session 1000).
  - reflexivity.
  - apply typed_empty.
  - reflexivity.
  - reflexivity.
  - reflexivity.
  - lia.
Defined.

(** C10 (the code departs from it).  Claim: [RenewTTL] fails with NotFound
    when no live record exists, and on a live record it moves the expiry of
    the record key and of the two index keys and nothing else.  In the
    code, [RenewTTL] asks [Get] for the record first, and [Get] calls
    [RenewTTL] again: after [Create] of a valid record, at every instant at
    which the record is visible, neither [RenewTTL] nor the service's
    [RenewSession] of its TMSI returns, whatever the recursion budget, so
    that no expiry is ever moved; at the instant the default TTL has
    passed since [Create] the record is gone, and [RenewTTL] returns
    [ErrSessionNotFound]. *)
Theorem Create_then_RenewTTL_never_returns cfg now db n s fuel :
  config.validateConfig cfg = None →
  typed db →
  repository.validateSession (Some s) = None →
  now ≤ n →
  ∃ s' db',
    repository.Create cfg now s db = Ret (inr s') db' ∧
    (n < now + config.DefaultTTL cfg →
       live_record n db' (TMSI s) = Some s' ∧
       repository.RenewTTL cfg fuel n (TMSI s) db' = OutOfFuel ∧
       service.RenewSession (repo := redis_repository cfg) fuel n (TMSI s) db'
         = OutOfFuel) ∧
    (now + config.DefaultTTL cfg ≤ n →
       live_record n db' (TMSI s) = None ∧
       repository.RenewTTL cfg (S (S fuel)) n (TMSI s) db'
         = Ret (inl ErrSessionNotFound) db').
Proof.
  intros Hcfg Hty Hv Hn.
  destruct (validateSession_fields s Hv) as (Ht & _).
  exists (stamped now s), (created cfg now s db).
  split; [by apply Create_typed|]. split.
  - intros Hlt.
    assert (live_record n (created cfg now s db) (TMSI s) = Some (stamped now s))
      as Hlive by (by apply live_record_created).
    split; [done|].
    split; [by destruct (Get_RenewTTL_live cfg fuel n _ _ _ Ht Hlive)|].
    by eapply RenewSession_live.
  - intros Hge.
    assert ((n <? now + config.DefaultTTL cfg) = false) as Hf
      by (apply Z.ltb_ge; lia).
    split; [by rewrite live_record_created_own, Hf|].
    rewrite RenewTTL_S, decide_False by done.
    rewrite Get_missing; [done..|]. by rewrite peek_created_own, Hf.
Qed.

Lemma Create_then_RenewTTL_never_returns_witness :
  ∃ s' db',
    repository.Create test_cfg 1000 test_session ∅ = Ret (inr s') db' ∧
    (1001 < 1000 + config.DefaultTTL test_cfg →
       live_record 1001 db' (TMSI test_session) = Some s' ∧
       repository.RenewTTL test_cfg 1000 1001 (TMSI test_session) db' = OutOfFuel ∧
       service.RenewSession (repo := redis_repository test_cfg) 1000 1001
         (TMSI test_session) db' = OutOfFuel) ∧
    (1000 + config.DefaultTTL test_cfg ≤ 1001 →
       live_record 1001 db' (TMSI test_session) = None ∧
       repository.RenewTTL test_cfg (S (S 1000)) 1001 (TMSI test_session) db'
         = Ret (inl ErrSessionNotFound) db').
Proof.
  apply (Create_then_RenewTTL_never_returns test_cfg 1000 ∅ 1001 test_session 1000).
  - reflexivity.
  - apply typed_empty.
  - reflexivity.
  - lia.
Defined.

(** ** Further properties of the code *)

(** *** Keys, configuration, validation *)

(** X1.  The key scheme keeps the three name spaces apart and loses no
    identifier: each of the three key functions is injective, and no
    session key is an index key, nor an IMSI index key an MSISDN index
    key, whatever the identifiers are. *)
Theorem key_scheme_separates (a b : string) :
  (SessionKey a = SessionKey b ↔ a = b) ∧
  (IMSIIndexKey a = IMSIIndexKey b ↔ a = b) ∧
  (MSISDNIndexKey a = MSISDNIndexKey b ↔ a = b) ∧
  SessionKey a ≠ IMSIIndexKey b ∧
  SessionKey a ≠ MSISDNIndexKey b ∧
  IMSIIndexKey a ≠ MSISDNIndexKey b.
Proof.
  repeat split; try (by intros ->); auto with keys.
  - apply SessionKey_inj.
  - apply IMSIIndexKey_inj.
  - apply MSISDNIndexKey_inj.
Qed.

(** X2.  [validateConfig] accepts a configuration exactly when both ports
    lie between 1 and 65535 and the three session durations satisfy
    0 < MinTTL <= DefaultTTL <= MaxTTL. *)
Theorem validateConfig_accepts_iff (c : config_file.Config) :
  config_file.validateConfig c = None ↔
  1 ≤ config_file.Server_Port (config_file.Server c) ≤ 65535 ∧
  1 ≤ config_file.Redis_Port (config_file.Redis c) ≤ 65535 ∧
  0 < config.MinTTL (config_file.Session c) ∧
  config.MinTTL (config_file.Session c) ≤ config.DefaultTTL (config_file.Session c) ∧
  config.DefaultTTL (config_file.Session c) ≤ config.MaxTTL (config_file.Session c).
Proof.
  unfold config_file.validateConfig, config.validateConfig.
  destruct (config_file.Server_Port (config_file.Server c) <=? 0) eqn:H1;
  destruct (65535 <? config_file.Server_Port (config_file.Server c)) eqn:H2;
  destruct (config_file.Redis_Port (config_file.Redis c) <=? 0) eqn:H3;
  destruct (65535 <? config_file.Redis_Port (config_file.Redis c)) eqn:H4;
  destruct (config.DefaultTTL (config_file.Session c) <=? 0) eqn:H5;
  destruct (config.MaxTTL (config_file.Session c) <=? 0) eqn:H6;
  destruct (config.MinTTL (config_file.Session c) <=? 0) eqn:H7;
  destruct (config.MaxTTL (config_file.Session c) <? config.DefaultTTL (config_file.Session c)) eqn:H8;
  destruct (config.DefaultTTL (config_file.Session c) <? config.MinTTL (config_file.Session c)) eqn:H9;
  simpl;
  rewrite ?Z.leb_le, ?Z.leb_gt, ?Z.ltb_lt, ?Z.ltb_ge in *;
  (split; [try discriminate; intros _; lia | intros ?; try reflexivity; lia]).
Qed.

(** X3.  The repository validator, the update validator of the service and
    the validator of the domain tests are the same function on a record;
    they accept it exactly when TMSI, IMSI and MSISDN are all non-empty;
    and what they return otherwise is the [ValidationError] of the first
    empty field in that order, which is also what the creation validator
    returns for such a record. *)
Theorem emptiness_validators_agree (s : Session) :
  service.validateSessionForUpdate (Some s) = repository.validateSession (Some s) ∧
  domain_test.validateSession (Some s) = repository.validateSession (Some s) ∧
  (repository.validateSession (Some s) = None ↔
   TMSI s ≠ "" ∧ IMSI s ≠ "" ∧ MSISDN s ≠ "") ∧
  (∀ e, repository.validateSession (Some s) = Some e →
     service.validateSessionForCreation (Some s) = Some e ∧
     (e = ErrInvalidTMSI ∧ TMSI s = "" ∨
      e = ErrInvalidIMSI ∧ TMSI s ≠ "" ∧ IMSI s = "" ∨
      e = ErrInvalidMSISDN ∧ TMSI s ≠ "" ∧ IMSI s ≠ "" ∧ MSISDN s = "")).
Proof.
  unfold service.validateSessionForUpdate, repository.validateSession,
    domain_test.validateSession, service.validateSessionForCreation.
  split; [done|]. split; [done|]. split.
  - repeat case_decide; split; try done; intros (? & ? & ?); done.
  - intros e. repeat case_decide; intros [= <-]; split; auto 10.
Qed.

(** X4.  The creation validator accepts a record exactly when its TMSI
    has at least 4 bytes, its IMSI at least 14 and its MSISDN at least 10;
    a record it accepts is accepted by the repository validator and by the
    update validator; and what it returns for a record it rejects is a
    [ValidationError] exactly when one of the three fields is empty. *)
Theorem validateSessionForCreation_accepts_iff (s : Session) :
  (service.validateSessionForCreation (Some s) = None ↔
   (4 ≤ String.length (TMSI s))%nat ∧ (14 ≤ String.length (IMSI s))%nat ∧
   (10 ≤ String.length (MSISDN s))%nat) ∧
  (service.validateSessionForCreation (Some s) = None →
   repository.validateSession (Some s) = None ∧
   service.validateSessionForUpdate (Some s) = None) ∧
  (∀ e, service.validateSessionForCreation (Some s) = Some e →
     (is_ValidationError e = true ↔ TMSI s = "" ∨ IMSI s = "" ∨ MSISDN s = "")).
Proof.
  split; [|split].
  - unfold service.validateSessionForCreation.
    destruct (TMSI s) as [|c1 t1] eqn:Ht; [simpl; split; [done|lia]|].
    destruct (IMSI s) as [|c2 t2] eqn:Hi; [simpl; split; [done|lia]|].
    destruct (MSISDN s) as [|c3 t3] eqn:Hm; [simpl; split; [done|lia]|].
    rewrite !decide_False by done.
    destruct (Z.of_nat (String.length (String c1 t1)) <? 4) eqn:H1;
    destruct (Z.of_nat (String.length (String c2 t2)) <? 14) eqn:H2;
    destruct (Z.of_nat (String.length (String c3 t3)) <? 10) eqn:H3;
    rewrite ?Z.ltb_lt, ?Z.ltb_ge in *;
    (split; [try discriminate; intros _; lia | intros ?; try reflexivity; lia]).
  - apply validateSessionForCreation_None.
  - intros e. unfold service.validateSessionForCreation.
    repeat case_decide; try (intros [= <-]; simpl; split; auto; done).
    destruct (_ <? 4); [intros [= <-]; simpl; split; [done|intros [?|[?|?]]; done]|].
    destruct (_ <? 14); [intros [= <-]; simpl; split; [done|intros [?|[?|?]]; done]|].
    destruct (_ <? 10); [intros [= <-]; simpl; split; [done|intros [?|[?|?]]; done]|].
    done.
Qed.

(** X5.  The HTTP status of a rejected creation: for a record the creation
    validator rejects, [handleError] answers 400 when one of TMSI, IMSI and
    MSISDN is empty and 500 when all three are present and one is too
    short. *)
Theorem creation_validation_status (s : Session) (e : error) :
  service.validateSessionForCreation (Some s) = Some e →
  handler.handleError e =
    if decide (TMSI s = "" ∨ IMSI s = "" ∨ MSISDN s = "") then 400 else 500.
Proof.
  unfold service.validateSessionForCreation.
  repeat case_decide; try (intros [= <-]; by vm_compute); try tauto.
  destruct (_ <? 4); [intros [= <-]; by vm_compute|].
  destruct (_ <? 14); [intros [= <-]; by vm_compute|].
  destruct (_ <? 10); [intros [= <-]; by vm_compute|].
  done.
Qed.

Lemma creation_validation_status_witness :
  handler.handleError (Errorf "TMSI must be at least 4 characters long") =
    if decide (TMSI short_session = "" ∨ IMSI short_session = "" ∨
               MSISDN short_session = "") then 400 else 500.
Proof.
  apply (creation_validation_status short_session).
  reflexivity.
Defined.

(** *** Reading and writing *)

Lemma live_record_None_peek now db tmsi :
  well_typed db →
  live_record now db tmsi = None →
  redis.peek now db (SessionKey tmsi) = None.
Proof.
  intros (Hs & _). unfold live_record.
  destruct (redis.peek now db (SessionKey tmsi)) as [[[d|m] ex]|] eqn:Hp; [done| |done].
  apply peek_Some in Hp as [Hl _]. apply Hs in Hl as (s & Hv & _). done.
Qed.

Lemma validateSession_defaulted s :
  repository.validateSession (Some (defaulted s)) = repository.validateSession (Some s).
Proof.
  unfold defaulted, repository.validateSession.
  destruct (decide (UEState s = "")); by destruct (Capabilities _).
Qed.

Lemma CreateSession_fresh_eq cfg fuel now s db :
  service.validateSessionForCreation (Some s) = None →
  redis.peek now db (SessionKey (TMSI s)) = None →
  service.CreateSession (repo := redis_repository cfg) (S fuel) now s db =
  repository.Create cfg now (defaulted s) db.
Proof.
  intros Hv Hp. unfold service.CreateSession. rewrite Hv.
  cbn [service.repo_Get service.repo_Create redis_repository].
  rewrite Get_missing; [done| |done].
  unfold service.validateSessionForCreation in Hv. by case_decide.
Qed.

(** What one operation, run at one instant, does to a well-typed key
    space when it returns: nothing, or what [Create] of a valid record
    does. *)
Lemma run_op_effect cfg fuel now o db db' :
  config.validateConfig cfg = None →
  well_typed db →
  run_op cfg fuel now o db = Some db' →
  db' = db ∨
  is_create o = true ∧
  ∃ s, repository.validateSession (Some s) = None ∧ db' = created cfg now s db.
Proof.
  intros Hcfg Hty. destruct o; simpl.
  - destruct (repository.validateSession (Some session)) as [err|] eqn:Hv.
    + unfold repository.Create. rewrite Hv. intros [= <-]. by left.
    + rewrite (Create_well_typed cfg Hcfg) by done. intros [= <-]. right. eauto.
  - destruct (repository.Get _ _ _ _ _) eqn:Hrun; [done|]. intros [= <-].
    apply Get_Ret in Hrun as [-> _]. by left.
  - destruct (repository.Update _ _ _ _ _) eqn:Hrun; [done|]. intros [= <-].
    apply Update_Ret in Hrun as [-> _]. by left.
  - destruct (repository.Delete _ _ _ _ _) eqn:Hrun; [done|]. intros [= <-].
    apply Delete_Ret in Hrun as [-> _]. by left.
  - destruct (repository.RenewTTL _ _ _ _ _) eqn:Hrun; [done|]. intros [= <-].
    apply RenewTTL_Ret in Hrun as [-> _]. by left.
  - destruct (repository.QueryByIMSI _ _ _ _ _) eqn:Hrun; [done|]. intros [= <-].
    apply QueryByIMSI_Ret in Hrun as ->. by left.
  - destruct (repository.QueryByMSISDN _ _ _ _ _) eqn:Hrun; [done|]. intros [= <-].
    apply QueryByMSISDN_Ret in Hrun as ->. by left.
  - unfold service.CreateSession.
    destruct (service.validateSessionForCreation _) eqn:Hv; [intros [= <-]; by left|].
    cbn [service.repo_Get service.repo_Create redis_repository].
    destruct (repository.Get _ _ _ _ _) as [|r0 db0] eqn:Hrun; [done|].
    apply Get_Ret in Hrun as [-> [e ->]].
    apply validateSessionForCreation_None in Hv as [Hv _].
    rewrite <- validateSession_defaulted in Hv. fold (defaulted session).
    rewrite (Create_well_typed cfg Hcfg) by done. intros [= <-]. right. eauto.
  - unfold service.GetSession. case_decide; [intros [= <-]; by left|].
    cbn [service.repo_Get redis_repository].
    destruct (repository.Get _ _ _ _ _) as [|r0 db0] eqn:Hrun; [done|].
    apply Get_Ret in Hrun as [-> [e ->]]. intros [= <-]. by left.
  - unfold service.UpdateSession.
    destruct (service.validateSessionForUpdate _); [intros [= <-]; by left|].
    cbn [service.repo_Get redis_repository].
    destruct (repository.Get _ _ _ _ _) as [|r0 db0] eqn:Hrun; [done|].
    apply Get_Ret in Hrun as [-> [e ->]]. intros [= <-]. by left.
  - unfold service.DeleteSession. case_decide; [intros [= <-]; by left|].
    cbn [service.repo_Get redis_repository].
    destruct (repository.Get _ _ _ _ _) as [|r0 db0] eqn:Hrun; [done|].
    apply Get_Ret in Hrun as [-> [e ->]]. intros [= <-]. by left.
  - unfold service.RenewSession. case_decide; [intros [= <-]; by left|].
    cbn [service.repo_Get redis_repository].
    destruct (repository.Get _ _ _ _ _) as [|r0 db0] eqn:Hrun; [done|].
    apply Get_Ret in Hrun as [-> [e ->]]. intros [= <-]. by left.
Qed.

(** X6.  Failing before anything is written.  [Update] and the service's
    [UpdateSession] validate the record before they look anything up: a
    record with an empty TMSI, IMSI or MSISDN gets the validator's error,
    whatever the key space holds.  [Delete], [RenewTTL], [DeleteSession] and
    [RenewSession] answer an empty TMSI with its [ValidationError] in the
    same way.  And when nothing is visible under the session key of a
    non-empty TMSI, all six fail with [ErrSessionNotFound] ([Update] and
    [UpdateSession] for a record that passes validation).  In each of these
    cases the key space is left as it was. *)
Theorem lookup_without_record cfg fuel now session db :
  (∀ e, repository.validateSession (Some session) = Some e →
     repository.Update cfg fuel now session db = Ret (inl e) db ∧
     service.UpdateSession (repo := redis_repository cfg) fuel now session db
       = Ret (inl e) db) ∧
  (repository.Delete cfg fuel now "" db = Ret (inl ErrInvalidTMSI) db ∧
   service.DeleteSession (repo := redis_repository cfg) fuel now "" db
     = Ret (inl ErrInvalidTMSI) db ∧
   repository.RenewTTL cfg (S fuel) now "" db = Ret (inl ErrInvalidTMSI) db ∧
   service.RenewSession (repo := redis_repository cfg) fuel now "" db
     = Ret (inl ErrInvalidTMSI) db) ∧
  (TMSI session ≠ "" →
   redis.peek now db (SessionKey (TMSI session)) = None →
   repository.Delete cfg (S fuel) now (TMSI session) db
     = Ret (inl ErrSessionNotFound) db ∧
   service.DeleteSession (repo := redis_repository cfg) (S fuel) now (TMSI session) db
     = Ret (inl ErrSessionNotFound) db ∧
   repository.RenewTTL cfg (S (S fuel)) now (TMSI session) db
     = Ret (inl ErrSessionNotFound) db ∧
   service.RenewSession (repo := redis_repository cfg) (S fuel) now (TMSI session) db
     = Ret (inl ErrSessionNotFound) db ∧
   (repository.validateSession (Some session) = None →
    repository.Update cfg (S fuel) now session db
      = Ret (inl ErrSessionNotFound) db ∧
    service.UpdateSession (repo := redis_repository cfg) (S fuel) now session db
      = Ret (inl ErrSessionNotFound) db)).
Proof.
  split; [|split].
  - intros e Hv. unfold repository.Update, service.UpdateSession.
    change (service.validateSessionForUpdate (Some session))
      with (repository.validateSession (Some session)).
    by rewrite Hv.
  - by rewrite RenewTTL_S.
  - intros Hne Hp.
    assert (∀ f, repository.Get cfg (S f) now (TMSI session) db
                 = Ret (inl ErrSessionNotFound) db) as HG.
    { intros f. by apply Get_missing. }
    unfold repository.Delete, service.DeleteSession, service.RenewSession.
    rewrite RenewTTL_S. cbn [service.repo_Get redis_repository].
    rewrite !decide_False, !HG by done.
    do 4 (split; [done|]).
    intros Hv. unfold repository.Update, service.UpdateSession.
    change (service.validateSessionForUpdate (Some session))
      with (repository.validateSession (Some session)).
    rewrite Hv. cbn [service.repo_Get redis_repository]. by rewrite HG.
Qed.

(** X7.  [Get] without a record: when nothing is visible under the session
    key of [tmsi], [Get] and the service's [GetSession] fail with
    [ErrSessionNotFound] (with the TMSI's [ValidationError] when [tmsi] is
    empty), the key space is left as it was, and the HTTP layer answers
    404 (400 for the empty TMSI). *)
Theorem Get_without_record cfg fuel now tmsi db :
  redis.peek now db (SessionKey tmsi) = None →
  repository.Get cfg (S fuel) now tmsi db = Ret (inl (lookup_error tmsi)) db ∧
  service.GetSession (repo := redis_repository cfg) (S fuel) now tmsi db
    = Ret (inl (lookup_error tmsi)) db ∧
  handler.handleError (lookup_error tmsi) = if decide (tmsi = "") then 400 else 404.
Proof.
  intros Hp. unfold lookup_error, service.GetSession.
  cbn [service.repo_Get redis_repository].
  case_decide as Ht.
  - rewrite Get_S, decide_True by done. done.
  - rewrite Get_missing by done. done.
Qed.

Lemma Get_without_record_witness :
  repository.Get test_cfg 1 1000 "nonexistent" ∅ = Ret (inl ErrSessionNotFound) ∅ ∧
  service.GetSession (repo := redis_repository test_cfg) 1 1000 "nonexistent" ∅
    = Ret (inl ErrSessionNotFound) ∅ ∧
  handler.handleError ErrSessionNotFound = 404.
Proof.
  apply (Get_without_record test_cfg 0 1000 "nonexistent" ∅).
  reflexivity.
Defined.


(** X8.  What [Create] touches.  When [Create] has stored a record at
    instant [now], then at every later instant: the records of all other
    TMSIs are as before; the index sets of all other IMSIs and MSISDNs are
    as before; and the index set of the record's IMSI (of its MSISDN)
    consists of the record's TMSI and of the members that were visible
    when [Create] ran, for as long as the default TTL in whole seconds has
    not passed since [now], and is gone from then on. *)
Theorem Create_frame cfg now db n s s' db' :
  config.validateConfig cfg = None →
  typed db →
  repository.Create cfg now s db = Ret (inr s') db' →
  now ≤ n →
  (∀ t, t ≠ TMSI s → live_record n db' t = live_record n db t) ∧
  (∀ i, index_members n db' (IMSIIndexKey i) =
        if decide (i = IMSI s)
        then if n <? now + redis.whole_seconds (config.DefaultTTL cfg)
             then {[ TMSI s ]} ∪ index_members now db (IMSIIndexKey i)
             else ∅
        else index_members n db (IMSIIndexKey i)) ∧
  (∀ m, index_members n db' (MSISDNIndexKey m) =
        if decide (m = MSISDN s)
        then if n <? now + redis.whole_seconds (config.DefaultTTL cfg)
             then {[ TMSI s ]} ∪ index_members now db (MSISDNIndexKey m)
             else ∅
        else index_members n db (MSISDNIndexKey m)).
Proof.
  intros Hcfg Hty HC _.
  destruct (repository.validateSession (Some s)) as [e|] eqn:Hv.
  { unfold repository.Create in HC. by rewrite Hv in HC. }
  rewrite (Create_typed cfg Hcfg) in HC by done. injection HC as <- <-.
  split; [intros t Ht; by apply live_record_created_other|].
  split; intros i; [apply index_members_created_imsi
                   |apply index_members_created_msisdn].
Qed.

Lemma Create_frame_witness :
  (∀ t, t ≠ TMSI other_session →
        live_record 1500 (created test_cfg 1001 other_session test_db) t
        = live_record 1500 test_db t) ∧
  (∀ i, index_members 1500 (created test_cfg 1001 other_session test_db) (IMSIIndexKey i) =
        if decide (i = IMSI other_session)
        then if 1500 <? 1001 + redis.whole_seconds (config.DefaultTTL test_cfg)
             then {[ TMSI other_session ]} ∪ index_members 1001 test_db (IMSIIndexKey i)
             else ∅
        else index_members 1500 test_db (IMSIIndexKey i)) ∧
  (∀ m, index_members 1500 (created test_cfg 1001 other_session test_db)
          (MSISDNIndexKey m) =
        if decide (m = MSISDN other_session)
        then if 1500 <? 1001 + redis.whole_seconds (config.DefaultTTL test_cfg)
             then {[ TMSI other_session ]} ∪ index_members 1001 test_db (MSISDNIndexKey m)
             else ∅
        else index_members 1500 test_db (MSISDNIndexKey m)).
Proof.
  apply (Create_frame test_cfg 1001 test_db 1500 other_session
           (stamped 1001 other_session)).
  - reflexivity.
  - apply well_typed_typed.
    apply (reachable_Inv test_cfg eq_refl 1000 test_db).
    apply (run_script_reachable test_cfg 1 [(1000, OpCreate test_session)] 1000 ∅
             1000 test_db (reach_empty _ _)).
    vm_compute; reflexivity.
  - vm_compute; reflexivity.
  - lia.
Defined.

(** X9.  The result of [Create].  A record with an empty TMSI, IMSI or
    MSISDN is refused with the validator's error and nothing is written,
    whatever the key space holds.  And whenever [Create] reports success,
    the session it hands back has [LastUpdate] set to the current instant,
    [AttachTime] set to it only when the caller left it zero, and every
    other field as given. *)
Theorem Create_result cfg now s db :
  (∀ e, repository.validateSession (Some s) = Some e →
        repository.Create cfg now s db = Ret (inl e) db) ∧
  (∀ s' db', repository.Create cfg now s db = Ret (inr s') db' →
     repository.validateSession (Some s) = None ∧
     LastUpdate s' = now ∧
     AttachTime s' = (if AttachTime s =? 0 then now else AttachTime s) ∧
     same_but_timestamps s s').
Proof.
  split.
  - intros e Hv. unfold repository.Create. by rewrite Hv.
  - intros s' db'. unfold repository.Create.
    destruct (repository.validateSession (Some s)) as [e|]; [done|].
    fold (stamped now s). unfold exec_pipeline.
    destruct (redis.Pipeline_Exec _ _ _) as [[rs [err|]] db1]; [done|].
    intros [= <- <-]. split; [done|].
    unfold stamped, same_but_timestamps, IsZero.
    by destruct (AttachTime s =? 0).
Qed.



(** *** Shape and lifetime of the key space *)

(** Each writing function sends exactly its batch, after its look-up. *)
Lemma Create_sends_batch cfg now s db :
  repository.validateSession (Some s) = None →
  repository.Create cfg now s db =
  exec_pipeline now (Create_batch cfg (stamped now s)) "failed to create session"
    (stamped now s) db.
Proof. intros Hv. unfold repository.Create. by rewrite Hv. Qed.

Lemma RenewTTL_sends_batch cfg fuel now tmsi db :
  tmsi ≠ "" →
  repository.RenewTTL cfg (S fuel) now tmsi db =
  bind (repository.Get cfg fuel now tmsi db) (λ session db1,
    exec_pipeline now (RenewTTL_batch cfg tmsi session) "failed to renew TTL" tt db1).
Proof. intros Hne. by rewrite RenewTTL_S, decide_False. Qed.

Lemma Update_sends_batch cfg fuel now session db :
  repository.validateSession (Some session) = None →
  repository.Update cfg fuel now session db =
  bind (repository.Get cfg fuel now (TMSI session) db) (λ existingSession db1,
    exec_pipeline now
      (Update_batch cfg existingSession
         (with_AttachTime (AttachTime existingSession) (with_LastUpdate now session)))
      "failed to update session"
      (with_AttachTime (AttachTime existingSession) (with_LastUpdate now session)) db1).
Proof. intros Hv. unfold repository.Update. by rewrite Hv. Qed.

Lemma Delete_sends_batch cfg fuel now tmsi db :
  tmsi ≠ "" →
  repository.Delete cfg fuel now tmsi db =
  bind (repository.Get cfg fuel now tmsi db) (λ session db1,
    exec_pipeline now (Delete_batch tmsi session) "failed to delete session" tt db1).
Proof. intros Hne. unfold repository.Delete. by rewrite decide_False. Qed.

Lemma cleanup_sends_batch cfg fuel now tmsi db :
  repository.cleanupExpiredIndex cfg fuel now tmsi db =
  match repository.Get cfg fuel now tmsi db with
  | OutOfFuel => None
  | Ret (inl _) db1 => Some db1
  | Ret (inr session) db1 => Some (redis.run now (cleanup_batch tmsi session) db1).2
  end.
Proof.
  unfold repository.cleanupExpiredIndex, redis.Pipeline_Exec.
  destruct (repository.Get cfg fuel now tmsi db) as [|[e|session] db1]; [done..|].
  by destruct (redis.run now _ db1).
Qed.

Lemma after_exec_pipeline {A} now cmds msg (a : A) db :
  after (exec_pipeline now cmds msg a db) = Some (redis.run now cmds db).2.
Proof.
  unfold exec_pipeline, redis.Pipeline_Exec.
  destruct (redis.run now cmds db) as [rs db1]. by destruct (redis.first_error rs).
Qed.

Lemma run_cons now c cmds db :
  (redis.run now (c :: cmds) db).2 = (redis.run now cmds (redis.exec now c db).2).2.
Proof.
  cbn [redis.run]. destruct (redis.exec now c db) as [r db1]. cbn [snd].
  by destruct (redis.run now cmds db1).
Qed.

Lemma run_app now cmds1 cmds2 db :
  (redis.run now (cmds1 ++ cmds2) db).2
  = (redis.run now cmds2 (redis.run now cmds1 db).2).2.
Proof.
  revert db. induction cmds1 as [|c cmds1 IH]; intros db; [done|].
  rewrite <- app_comm_cons, !run_cons. apply IH.
Qed.

Section Sound.
Variable cfg : config.SessionConfig.
Hypothesis Hcfg : config.validateConfig cfg = None.

Lemma sound_empty now : sound (horizon cfg) now ∅.
Proof. intros k e. by rewrite lookup_empty. Qed.

Lemma sound_mono now now' db :
  now ≤ now' → sound (horizon cfg) now db → sound (horizon cfg) now' db.
Proof.
  intros Hle Hs k e Hl. destruct (Hs k e Hl) as [Hshape (x & Hx & Hb)].
  split; [done|]. exists x. split; [done|lia].
Qed.

Lemma sound_insert now db key e :
  sound_entry (horizon cfg) now key e →
  sound (horizon cfg) now db → sound (horizon cfg) now (<[key := e]> db).
Proof.
  intros He Hs k e'. rewrite lookup_insert. case_decide; [|apply Hs].
  intros [= <-]. by subst k.
Qed.

Lemma sound_delete now db key :
  sound (horizon cfg) now db → sound (horizon cfg) now (delete key db).
Proof. intros Hs k e [_ Hl]%lookup_delete_Some. by apply Hs. Qed.

Lemma sound_holds_set now db key i :
  key = IMSIIndexKey i ∨ key = MSISDNIndexKey i →
  sound (horizon cfg) now db → holds_set_or_nothing now db key.
Proof.
  intros Hk Hs d ex [Hl _]%peek_Some. apply Hs in Hl as [[Heq _] _].
  simpl in Heq. destruct Hk as [->| ->]; symmetry in Heq.
  - by apply SessionKey_IMSIIndexKey in Heq.
  - by apply SessionKey_MSISDNIndexKey in Heq.
Qed.

Lemma sound_members now db key :
  sound (horizon cfg) now db → "" ∉ index_members now db key.
Proof.
  intros Hs. unfold index_members.
  destruct (redis.peek now db key) as [[[d|m] ex]|] eqn:Hp;
    try apply not_elem_of_empty.
  apply peek_Some in Hp as [Hl _]. apply Hs in Hl as [Hshape _].
  unfold entry_shape in Hshape. simpl in Hshape. by destruct Hshape as (_ & ? & _).
Qed.

Lemma sound_SET now db s :
  repository.validateSession (Some s) = None →
  sound (horizon cfg) now db →
  sound (horizon cfg) now
    (redis.exec now (redis.SET (SessionKey (TMSI s)) s (config.DefaultTTL cfg)) db).2.
Proof.
  intros Hv Hs. pose proof (DefaultTTL_pos cfg Hcfg) as Hpos.
  cbn [redis.exec snd]. apply Z.ltb_lt in Hpos as ->.
  apply sound_insert; [|done]. split; [done|].
  eexists. split; [done|]. pose proof (DefaultTTL_horizon cfg). lia.
Qed.

Lemma sound_DEL now db key :
  sound (horizon cfg) now db →
  sound (horizon cfg) now (redis.exec now (redis.DEL key) db).2.
Proof.
  intros Hs. cbn [redis.exec].
  destruct (redis.peek now db key); by apply sound_delete.
Qed.

Lemma sound_SREM now db key member :
  sound (horizon cfg) now db →
  sound (horizon cfg) now (redis.exec now (redis.SREM key member) db).2.
Proof.
  intros Hs. cbn [redis.exec].
  destruct (redis.peek now db key) as [[[d|m] ex]|] eqn:Hp; [done| |done].
  cbn [snd]. case_decide as Hm; [by apply sound_delete|].
  apply sound_insert; [|done].
  apply peek_Some in Hp as [Hl _]. apply Hs in Hl as [(_ & Hno & Hkey) Hb].
  split; [|done]. unfold entry_shape. simpl.
  split; [done|]. split; [|done].
  rewrite elem_of_difference. by intros [? _].
Qed.

Lemma sound_EXPIRE now db key :
  sound (horizon cfg) now db →
  sound (horizon cfg) now
    (redis.exec now (redis.EXPIRE key (config.DefaultTTL cfg)) db).2.
Proof.
  intros Hs. cbn [redis.exec].
  destruct (redis.peek now db key) as [[v ex]|] eqn:Hp; [|done].
  cbn [snd]. destruct (0 <? _); [|by apply sound_delete].
  apply sound_insert; [|done].
  apply peek_Some in Hp as [Hl _]. apply Hs in Hl as [Hshape _].
  split; [done|]. eexists. split; [done|].
  pose proof (whole_seconds_horizon cfg). lia.
Qed.

Lemma sound_index_add now db key member i :
  member ≠ "" → i ≠ "" →
  key = IMSIIndexKey i ∨ key = MSISDNIndexKey i →
  sound (horizon cfg) now db →
  sound (horizon cfg) now
    (index_add now (redis.whole_seconds (config.DefaultTTL cfg)) key member db).
Proof.
  intros Hm Hi Hk Hs. unfold index_add. apply sound_insert; [|done].
  split.
  - unfold entry_shape. simpl. split; [|split; [|eauto]].
    + apply (non_empty_inhabited_L member).
      by apply elem_of_union_l, elem_of_singleton.
    + pose proof (sound_members now db key Hs).
      rewrite elem_of_union, elem_of_singleton. intros [?|?]; done.
  - eexists. split; [done|]. pose proof (whole_seconds_horizon cfg). lia.
Qed.

Lemma sound_SADD_EXPIRE now db key member i rest :
  member ≠ "" → i ≠ "" →
  key = IMSIIndexKey i ∨ key = MSISDNIndexKey i →
  sound (horizon cfg) now db →
  ∃ db1, sound (horizon cfg) now db1 ∧
    (redis.run now (redis.SADD key member
                      :: redis.EXPIRE key (config.DefaultTTL cfg) :: rest) db).2
    = (redis.run now rest db1).2.
Proof.
  intros Hm Hi Hk Hs.
  exists (index_add now (redis.whole_seconds (config.DefaultTTL cfg)) key member db).
  split; [by apply (sound_index_add now db key member i)|].
  destruct (run_SADD_EXPIRE now (config.DefaultTTL cfg) key member rest db
              (DefaultTTL_pos cfg Hcfg)) as [n ->]; [by eapply sound_holds_set|done].
Qed.

(** No batch takes the key space out of the sound ones. *)
Lemma sound_batch now cmds db :
  batch cfg cmds →
  sound (horizon cfg) now db → sound (horizon cfg) now (redis.run now cmds db).2.
Proof.
  intros Hb Hs. destruct Hb as [s Hv|existing s Hv|tmsi s Hne|tmsi s Hne|tmsi s Hne].
  - destruct (validateSession_fields s Hv) as (Ht & Hi & Hm).
    unfold Create_batch. rewrite run_cons.
    pose proof (sound_SET now db s Hv Hs) as Hs1.
    destruct (sound_SADD_EXPIRE now _ (IMSIIndexKey (IMSI s)) (TMSI s) (IMSI s)
                [redis.SADD (MSISDNIndexKey (MSISDN s)) (TMSI s);
                 redis.EXPIRE (MSISDNIndexKey (MSISDN s)) (config.DefaultTTL cfg)]
                Ht Hi (or_introl eq_refl) Hs1) as (db1 & Hs2 & ->).
    by destruct (sound_SADD_EXPIRE now db1 (MSISDNIndexKey (MSISDN s)) (TMSI s) (MSISDN s)
                   [] Ht Hm (or_intror eq_refl) Hs2) as (db2 & Hs3 & ->).
  - destruct (validateSession_fields s Hv) as (Ht & Hi & Hm).
    unfold Update_batch. rewrite run_cons, run_app.
    pose proof (sound_SET now db s Hv Hs) as Hs1.
    set (db1 := (redis.exec now _ db).2) in *.
    assert (sound (horizon cfg) now
              (redis.run now
                 (if decide (IMSI existing = IMSI s) then []
                  else [ redis.SREM (IMSIIndexKey (IMSI existing)) (TMSI s);
                         redis.SADD (IMSIIndexKey (IMSI s)) (TMSI s);
                         redis.EXPIRE (IMSIIndexKey (IMSI s)) (config.DefaultTTL cfg) ])
                 db1).2) as Hs2.
    { case_decide; [done|]. rewrite run_cons.
      pose proof (sound_SREM now db1 (IMSIIndexKey (IMSI existing)) (TMSI s) Hs1) as Hr.
      by destruct (sound_SADD_EXPIRE now _ (IMSIIndexKey (IMSI s)) (TMSI s) (IMSI s)
                     [] Ht Hi (or_introl eq_refl) Hr) as (db2 & Hs2 & ->). }
    revert Hs2. generalize (redis.run now
      (if decide (IMSI existing = IMSI s) then []
       else [ redis.SREM (IMSIIndexKey (IMSI existing)) (TMSI s);
              redis.SADD (IMSIIndexKey (IMSI s)) (TMSI s);
              redis.EXPIRE (IMSIIndexKey (IMSI s)) (config.DefaultTTL cfg) ]) db1).2.
    intros db2 Hs2. destruct (decide (MSISDN existing = MSISDN s)); [done|].
    rewrite run_cons.
    pose proof (sound_SREM now _ (MSISDNIndexKey (MSISDN existing)) (TMSI s) Hs2) as Hr.
    by destruct (sound_SADD_EXPIRE now _ (MSISDNIndexKey (MSISDN s)) (TMSI s) (MSISDN s)
                   [] Ht Hm (or_intror eq_refl) Hr) as (db3 & Hs3 & ->).
  - unfold Delete_batch. rewrite !run_cons.
    by apply sound_SREM, sound_SREM, sound_DEL.
  - unfold RenewTTL_batch. rewrite !run_cons.
    by apply sound_EXPIRE, sound_EXPIRE, sound_EXPIRE.
  - unfold cleanup_batch. rewrite !run_cons. by apply sound_SREM, sound_SREM.
Qed.

Lemma written_sound now db : written cfg now db → sound (horizon cfg) now db.
Proof.
  induction 1 as [now|now now' db _ IH Hle|now cmds db _ IH Hb].
  - apply sound_empty.
  - by eapply sound_mono.
  - by apply sound_batch.
Qed.

(** What the operations reach at one instant each is among the written
    key spaces. *)
Lemma created_written now s db :
  repository.validateSession (Some s) = None →
  typed db →
  written cfg now db → written cfg now (created cfg now s db).
Proof.
  intros Hv Hty Hw.
  pose proof (Create_typed cfg Hcfg now s db Hv Hty) as HC.
  assert (Some (created cfg now s db)
          = Some (redis.run now (Create_batch cfg (stamped now s)) db).2) as Heq.
  { rewrite <- (after_exec_pipeline now _ "failed to create session" (stamped now s)).
    rewrite <- (Create_sends_batch cfg now s db Hv). by rewrite HC. }
  apply (inj Some) in Heq. rewrite Heq. apply written_batch; [done|].
  apply batch_Create.
  destruct (validateSession_fields s Hv) as (? & ? & ?).
  destruct (stamped_identity now s) as (Ht & Hi & Hm).
  unfold repository.validateSession. rewrite Ht, Hi, Hm.
  by rewrite !decide_False.
Qed.

Lemma reachable_written now db : reachable cfg now db → written cfg now db.
Proof.
  induction 1 as [now|now now' fuel o db db' Hreach IH Hle Hrun].
  - apply written_empty.
  - destruct (reachable_Inv cfg Hcfg now db Hreach) as (Hty & _).
    apply (written_later cfg now now') in IH; [|done].
    destruct (run_op_effect cfg fuel now' o db db' Hcfg Hty Hrun)
      as [->|(_ & s & Hv & ->)]; [done|].
    apply created_written; [done|by apply well_typed_typed|done].
Qed.

End Sound.

(** X11.  What the store can hold.  In a key space left by the write
    batches of the operations, whatever records they were sent with and in
    whatever order, a key visible at any instant is either the session key
    of a non-empty TMSI, holding a record with non-empty TMSI, IMSI and
    MSISDN, or the index key of a non-empty IMSI or MSISDN, holding a
    non-empty set of non-empty TMSIs; no other key is ever written, and no
    key holds a value of the wrong kind. *)
Theorem written_store_shape cfg now db n key e :
  config.validateConfig cfg = None →
  written cfg now db →
  redis.peek n db key = Some e →
  match redis.val e with
  | redis.VString s =>
      (∃ t, t ≠ "" ∧ key = SessionKey t) ∧
      TMSI s ≠ "" ∧ IMSI s ≠ "" ∧ MSISDN s ≠ ""
  | redis.VSet m =>
      m ≠ ∅ ∧ ("" ∉ m) ∧
      ∃ i, i ≠ "" ∧ (key = IMSIIndexKey i ∨ key = MSISDNIndexKey i)
  end.
Proof.
  intros Hcfg Hw [Hl _]%peek_Some.
  apply (written_sound cfg Hcfg now db Hw) in Hl as [Hshape _].
  unfold entry_shape in Hshape.
  destruct (redis.val e) as [s|m]; [|done].
  destruct Hshape as [-> Hv].
  destruct (validateSession_fields s Hv) as (? & ? & ?). eauto 10.
Qed.

Lemma written_store_shape_witness :
  match redis.val (redis.Entry (redis.VString (stamped 1000 test_session))
                               (Some 1801000)) with
  | redis.VString s =>
      (∃ t, t ≠ "" ∧ SessionKey "12345678" = SessionKey t) ∧
      TMSI s ≠ "" ∧ IMSI s ≠ "" ∧ MSISDN s ≠ ""
  | redis.VSet m =>
      m ≠ ∅ ∧ ("" ∉ m) ∧
      ∃ i, i ≠ "" ∧ (SessionKey "12345678" = IMSIIndexKey i ∨
                     SessionKey "12345678" = MSISDNIndexKey i)
  end.
Proof.
  apply (written_store_shape test_cfg 1000 test_db 1500 (SessionKey "12345678")).
  - reflexivity.
  - apply (reachable_written test_cfg eq_refl).
    apply (run_script_reachable test_cfg 1 [(1000, OpCreate test_session)] 1000 ∅
             1000 test_db (reach_empty _ _)).
    vm_compute; reflexivity.
  - vm_compute; reflexivity.
Defined.

(** X12.  Everything expires.  No batch gives a key a longer life than the
    default TTL, or than that TTL in whole seconds (one second for a TTL
    below a second) if that is longer: in a key space left by the write
    batches, once that time has passed since the last of them nothing is
    visible any more, every [Get] of a non-empty TMSI fails with
    [ErrSessionNotFound] and every query of a non-empty IMSI or MSISDN
    returns the empty sequence, without error. *)
Theorem written_store_expires cfg now db n :
  config.validateConfig cfg = None →
  written cfg now db →
  now + horizon cfg ≤ n →
  (∀ key, redis.peek n db key = None) ∧
  (∀ fuel tmsi, tmsi ≠ "" →
     repository.Get cfg (S fuel) n tmsi db = Ret (inl ErrSessionNotFound) db) ∧
  (∀ fuel imsi, imsi ≠ "" →
     repository.QueryByIMSI cfg (S fuel) n imsi db = Ret (inr []) db) ∧
  (∀ fuel msisdn, msisdn ≠ "" →
     repository.QueryByMSISDN cfg (S fuel) n msisdn db = Ret (inr []) db).
Proof.
  intros Hcfg Hw Hn.
  pose proof (written_sound cfg Hcfg now db Hw) as Hs.
  assert (∀ key, redis.peek n db key = None) as Hgone.
  { intros key. destruct (redis.peek n db key) as [e|] eqn:Hp; [|done].
    apply peek_Some in Hp as [Hl Hlive].
    apply Hs in Hl as (_ & x & Hx & Hle).
    unfold redis.live in Hlive. rewrite Hx in Hlive. apply Z.ltb_lt in Hlive. lia. }
  split; [done|]. split; [|split].
  - intros fuel tmsi Hne. by apply Get_missing.
  - intros fuel imsi Hne. unfold repository.QueryByIMSI.
    rewrite decide_False by done. simpl. by rewrite Hgone.
  - intros fuel msisdn Hne. unfold repository.QueryByMSISDN.
    rewrite decide_False by done. simpl. by rewrite Hgone.
Qed.

Lemma written_store_expires_witness :
  (∀ key, redis.peek 1801000 test_db key = None) ∧
  (∀ fuel tmsi, tmsi ≠ "" →
     repository.Get test_cfg (S fuel) 1801000 tmsi test_db
       = Ret (inl ErrSessionNotFound) test_db) ∧
  (∀ fuel imsi, imsi ≠ "" →
     repository.QueryByIMSI test_cfg (S fuel) 1801000 imsi test_db
       = Ret (inr []) test_db) ∧
  (∀ fuel msisdn, msisdn ≠ "" →
     repository.QueryByMSISDN test_cfg (S fuel) 1801000 msisdn test_db
       = Ret (inr []) test_db).
Proof.
  apply (written_store_expires test_cfg 1000 test_db 1801000).
  - reflexivity.
  - apply (reachable_written test_cfg eq_refl).
    apply (run_script_reachable test_cfg 1 [(1000, OpCreate test_session)] 1000 ∅
             1000 test_db (reach_empty _ _)).
    vm_compute; reflexivity.
  - vm_compute; discriminate.
Defined.



(** *** Queries and clean-up *)

(** X14.  [QueryByMSISDN] resolves the index.  On a key space whose
    session keys hold records and whose index keys hold sets, and for a
    non-empty MSISDN, the query returns without error and without changing
    the key space; its result consists of the records of exactly those
    members of the MSISDN's index set whose record is visible, whatever
    the MSISDN of these records is. *)
Theorem QueryByMSISDN_resolves_index cfg fuel db n msisdn :
  typed db →
  msisdn ≠ "" →
  ∃ sessions,
    repository.QueryByMSISDN cfg (S fuel) n msisdn db = Ret (inr sessions) db ∧
    sessions = omap (live_record n db)
                    (elements (index_members n db (MSISDNIndexKey msisdn))) ∧
    (∀ s, s ∈ sessions ↔
          ∃ t, t ∈ index_members n db (MSISDNIndexKey msisdn) ∧
               live_record n db t = Some s).
Proof.
  intros Hty Hne.
  eexists. split; [by apply QueryByMSISDN_typed|]. split; [done|].
  intros s. rewrite list_elem_of_omap. by setoid_rewrite elem_of_elements.
Qed.

Lemma QueryByMSISDN_resolves_index_witness :
  ∃ sessions,
    repository.QueryByMSISDN test_cfg 1 1500 "1234567890" test_db
      = Ret (inr sessions) test_db ∧
    sessions = omap (live_record 1500 test_db)
                    (elements (index_members 1500 test_db
                                 (MSISDNIndexKey "1234567890"))) ∧
    (∀ s, s ∈ sessions ↔
          ∃ t, t ∈ index_members 1500 test_db (MSISDNIndexKey "1234567890") ∧
               live_record 1500 test_db t = Some s).
Proof.
  apply (QueryByMSISDN_resolves_index test_cfg 0 test_db 1500 "1234567890").
  - apply well_typed_typed.
    apply (reachable_Inv test_cfg eq_refl 1000 test_db).
    apply (run_script_reachable test_cfg 1 [(1000, OpCreate test_session)] 1000 ∅
             1000 test_db (reach_empty _ _)).
    vm_compute; reflexivity.
  - discriminate.
Defined.

Lemma omap_live_record_TMSI n db (l : list string) :
  well_typed db →
  TMSI <$> omap (live_record n db) l =
  filter (λ t, is_Some (live_record n db t)) l.
Proof.
  intros (Hs & _). induction l as [|t l IH]; [done|].
  cbn [omap list_omap]. rewrite filter_cons.
  destruct (live_record n db t) as [s|] eqn:Hlive.
  - rewrite decide_True by eauto. cbn [fmap list_fmap]. f_equal; [|exact IH].
    apply live_record_Some in Hlive as [ex [Hl _]%peek_Some].
    apply Hs in Hl as (s' & Hv & Ht). simpl in Hv. congruence.
  - rewrite decide_False by (by intros [? ?]). exact IH.
Qed.



(** X16.  The clean-up task removes nothing.  [cleanupExpiredIndex] looks
    the record up with [Get] before it removes the TMSI from the index
    sets: for a TMSI without visible record (or the empty TMSI) it returns
    with the key space untouched, and for a non-empty TMSI with a visible
    record it does not return; in no case is an index entry removed. *)
Theorem cleanupExpiredIndex_removes_nothing cfg fuel now tmsi db :
  repository.cleanupExpiredIndex cfg (S fuel) now tmsi db =
    match live_record now db tmsi with
    | Some _ => if decide (tmsi = "") then Some db else None
    | None => Some db
    end ∧
  (repository.cleanupExpiredIndex cfg fuel now tmsi db = None ∨
   repository.cleanupExpiredIndex cfg fuel now tmsi db = Some db).
Proof.
  split.
  - destruct (live_record now db tmsi) as [s|] eqn:Hlive.
    + unfold repository.cleanupExpiredIndex. case_decide as Ht.
      * rewrite Get_S, decide_True by done. done.
      * by destruct (Get_RenewTTL_live cfg (S fuel) now tmsi db s Ht Hlive) as [-> _].
    + by apply cleanupExpiredIndex_missing.
  - destruct (repository.cleanupExpiredIndex cfg fuel now tmsi db) as [db'|] eqn:Hc;
      [right|by left].
    by apply cleanupExpiredIndex_Some in Hc as ->.
Qed.

(** X17.  For a non-empty TMSI with a visible record, [Delete] and the
    service's [DeleteSession] and [RenewSession] do not return, whatever
    the recursion budget: each of them begins with [Get]. *)
Theorem Delete_never_returns_on_live_record cfg fuel now tmsi db s :
  tmsi ≠ "" →
  live_record now db tmsi = Some s →
  repository.Delete cfg fuel now tmsi db = OutOfFuel ∧
  service.DeleteSession (repo := redis_repository cfg) fuel now tmsi db = OutOfFuel ∧
  service.RenewSession (repo := redis_repository cfg) fuel now tmsi db = OutOfFuel.
Proof.
  intros Hne Hlive.
  destruct (Delete_live cfg fuel now tmsi db s Hne Hlive) as [HD HS].
  split; [done|]. split; [done|].
  by eapply RenewSession_live.
Qed.

Lemma Delete_never_returns_witness :
  repository.Delete test_cfg 1000 1001 "12345678" test_db = OutOfFuel ∧
  service.DeleteSession (repo := redis_repository test_cfg) 1000 1001 "12345678" test_db
    = OutOfFuel ∧
  service.RenewSession (repo := redis_repository test_cfg) 1000 1001 "12345678" test_db
    = OutOfFuel.
Proof.
  apply (Delete_never_returns_on_live_record test_cfg 1000 1001 "12345678" test_db
           (stamped 1000 test_session)).
  - discriminate.
  - vm_compute; reflexivity.
Defined.

(** *** Merging the results of two queries *)

Section Merge.
Implicit Types (m : gmap string Session) (l : list Session).

Let collect_map m l : gmap string Session :=
  foldl (λ m session, <[TMSI session := session]> m) m l.

Lemma collect_map_lookup m l k s :
  collect_map m l !! k = Some s → s ∈ l ∧ TMSI s = k ∨ m !! k = Some s.
Proof.
  revert m. induction l as [|x l IH]; intros m; simpl; [auto|].
  intros [[? ?]|Hm]%IH.
  - left. split; [by apply list_elem_of_further|done].
  - rewrite lookup_insert in Hm. case_decide as Hk; [|auto].
    injection Hm as <-. left. split; [apply list_elem_of_here|done].
Qed.

Lemma collect_map_keep m l k :
  k ∉ TMSI <$> l → collect_map m l !! k = m !! k.
Proof.
  revert m. induction l as [|x l IH]; intros m; simpl; [done|].
  rewrite not_elem_of_cons. intros [Hx Hl].
  rewrite IH by done. by rewrite lookup_insert_ne.
Qed.

Lemma collect_map_last m l k :
  k ∈ TMSI <$> l → ∃ s, collect_map m l !! k = Some s ∧ s ∈ l ∧ TMSI s = k.
Proof.
  revert m. induction l as [|x l IH]; intros m; simpl; [by intros ?%elem_of_nil|].
  intros Hin. destruct (decide (k ∈ TMSI <$> l)) as [Hl|Hl].
  - destruct (IH (<[TMSI x := x]> m) Hl) as (s & Hs & Hsl & Hk).
    exists s. split; [done|]. split; [by apply list_elem_of_further|done].
  - apply elem_of_cons in Hin as [->|?]; [|done].
    exists x. rewrite collect_map_keep by done. rewrite lookup_insert_eq.
    split; [done|]. split; [apply list_elem_of_here|done].
Qed.

Lemma mergeSessions_elem_of l1 l2 s :
  s ∈ service_query.mergeSessions l1 l2 ↔
  collect_map (collect_map ∅ l1) l2 !! TMSI s = Some s.
Proof.
  unfold service_query.mergeSessions. fold (collect_map ∅ l1).
  fold (collect_map (collect_map ∅ l1) l2).
  rewrite list_elem_of_fmap. split.
  - intros ([k s'] & -> & Hin%elem_of_map_to_list). simpl.
    assert (TMSI s' = k) as ->; [|done].
    apply collect_map_lookup in Hin as [[_ ?]|Hin]; [done|].
    apply collect_map_lookup in Hin as [[_ ?]|Hin]; [done|].
    by rewrite lookup_empty in Hin.
  - intros Hin. exists (TMSI s, s). split; [done|]. by apply elem_of_map_to_list.
Qed.

Lemma mergeSessions_NoDup l1 l2 :
  NoDup (TMSI <$> service_query.mergeSessions l1 l2).
Proof.
  unfold service_query.mergeSessions. fold (collect_map ∅ l1).
  fold (collect_map (collect_map ∅ l1) l2).
  set (m := collect_map (collect_map ∅ l1) l2).
  assert (TMSI <$> (map_to_list m).*2 = (map_to_list m).*1) as ->;
    [|apply NoDup_fst_map_to_list].
  rewrite <- list_fmap_compose. apply list_fmap_ext.
  intros i [k s] Hin. simpl.
  apply list_elem_of_lookup_2, elem_of_map_to_list in Hin.
  apply collect_map_lookup in Hin as [[_ ?]|Hin]; [done|].
  apply collect_map_lookup in Hin as [[_ ?]|Hin]; [done|].
  by rewrite lookup_empty in Hin.
Qed.

Lemma mergeSessions_sound l1 l2 s :
  s ∈ service_query.mergeSessions l1 l2 → s ∈ l1 ∨ s ∈ l2.
Proof.
  intros Hin%mergeSessions_elem_of.
  apply collect_map_lookup in Hin as [[? _]|Hin]; [by right|].
  apply collect_map_lookup in Hin as [[? _]|Hin]; [by left|].
  by rewrite lookup_empty in Hin.
Qed.

Lemma mergeSessions_covers l1 l2 s :
  s ∈ l1 ∨ s ∈ l2 →
  ∃ s', s' ∈ service_query.mergeSessions l1 l2 ∧ TMSI s' = TMSI s.
Proof.
  intros Hs.
  destruct (decide (TMSI s ∈ TMSI <$> l2)) as [H2|H2].
  - destruct (collect_map_last (collect_map ∅ l1) l2 _ H2) as (s' & Hl & _ & Hk).
    exists s'. split; [|done]. apply mergeSessions_elem_of. by rewrite Hk.
  - assert (TMSI s ∈ TMSI <$> l1) as H1.
    { destruct Hs as [Hs|Hs]; [by apply list_elem_of_fmap_2|].
      destruct H2. by apply list_elem_of_fmap_2. }
    destruct (collect_map_last ∅ l1 _ H1) as (s' & Hl & _ & Hk).
    exists s'. split; [|done]. apply mergeSessions_elem_of.
    rewrite Hk, collect_map_keep by done. done.
Qed.

Lemma mergeSessions_second_wins l1 l2 s s2 :
  s ∈ service_query.mergeSessions l1 l2 → s2 ∈ l2 → TMSI s2 = TMSI s → s ∈ l2.
Proof.
  intros Hin%mergeSessions_elem_of Hs2 Heq.
  assert (TMSI s ∈ TMSI <$> l2) as H2.
  { rewrite <- Heq. by apply list_elem_of_fmap_2. }
  destruct (collect_map_last (collect_map ∅ l1) l2 _ H2) as (s' & Hl & Hsl & _).
  congruence.
Qed.

(** X18.  [mergeSessions] merges by TMSI: the result has one session per
    TMSI occurring in either slice and no other session; each session of
    the result comes from one of the slices; and for a TMSI that occurs in
    the second slice the session of the result is taken from the second
    slice. *)
Theorem mergeSessions_by_TMSI l1 l2 :
  NoDup (TMSI <$> service_query.mergeSessions l1 l2) ∧
  (∀ s, s ∈ service_query.mergeSessions l1 l2 → s ∈ l1 ∨ s ∈ l2) ∧
  (∀ s, s ∈ l1 ∨ s ∈ l2 →
        ∃ s', s' ∈ service_query.mergeSessions l1 l2 ∧ TMSI s' = TMSI s) ∧
  (∀ s s2, s ∈ service_query.mergeSessions l1 l2 → s2 ∈ l2 → TMSI s2 = TMSI s →
           s ∈ l2).
Proof.
  split; [apply mergeSessions_NoDup|].
  split; [intros s; apply mergeSessions_sound|].
  split; [intros s; apply mergeSessions_covers|].
  intros s s2. apply mergeSessions_second_wins.
Qed.

End Merge.

Lemma filterActiveSessions_id l : service_query.filterActiveSessions l = l.
Proof.
  unfold service_query.filterActiveSessions.
  induction l as [|x l IH]; [done|]. cbn. f_equal. exact IH.
Qed.

Lemma live_record_own_TMSI n db t s :
  well_typed db → live_record n db t = Some s → live_record n db (TMSI s) = Some s.
Proof.
  intros (Hs & _) Hlive.
  assert (TMSI s = t) as ->; [|done].
  apply live_record_Some in Hlive as [ex [Hl _]%peek_Some].
  apply Hs in Hl as (s' & Hv & Ht). simpl in Hv. congruence.
Qed.



(** *** Two sessions of one subscriber *)



(** The values of [setDefaults] pass [validateConfig]. *)
Lemma defaults_valid : config_file.validateConfig config_file.defaults = None.
Proof. reflexivity. Qed.
